(** * The application-start workflow of the [start] command

    A shallow embedding of the [start] command of package [application]
    (the third document of [cf/requirements/usage_requirement.go]): the
    instance counter [fetchInstanceCount], the two pollers
    [waitForInstancesToStage] and [waitForOneRunningInstance], the log
    tailer [TailStagingLogs] and the orchestrator [WatchStaging] with its
    entry [ApplicationStart].

    Conventions of the embedding.
    - A Go [string] is a [string]; a Go [error] is the text it carries and
      a nil-able error is an [option error].  A call that returns a value
      and an error returns the pair.
    - [time.Duration] and clock readings are integers (nanoseconds) in [Z].
      The clock is the monotonic one: it never runs backwards.  Time goes
      by in repository calls and in [time.Sleep], nowhere else.
    - The repositories and the UI are the outside world.  The world is an
      explicit state: a clock, one queue of scripted answers per repository
      call, and the trace of everything the command did to the outside.
      A computation that asks a repository whose queue is empty has no
      result ([None]).
    - The control task ([WatchStaging]) and the background task
      ([TailStagingLogs]) are embedded apart.  The control task records
      in the trace when it launches the tailer, waits on a wait group or
      sends on [stopChan]; the tailer is a state machine over the order in
      which things happen to it.
    - [T] is taken at the default locale: the template with its fields
      filled in.  Colouring functions, [cf.Name], the user name and number
      formatting are collaborators and stay abstract.
    - The [fmt.Println] and [fmt.Printf] diagnostics on standard output
      are not part of the trace. *)

From Stdlib Require Import ZArith List String Ascii Lia Bool.
From stdpp Require Import base option list gmap strings pretty sorting.
Import ListNotations.

Local Open Scope Z_scope.
Local Open Scope string_scope.

(** ** Data model (package [models]) *)

Module models.

Record Application := mkApplication {
  GUID : string;
  Name : string;
  State : string;
  PackageState : string;
  StagingFailedReason : string;
  Command : string;
  DetectedStartCommand : string
}.

(** [models.Application{}] *)
Definition zeroApplication : Application :=
  mkApplication EmptyString EmptyString EmptyString EmptyString
                EmptyString EmptyString EmptyString.

(** [models.AppInstanceFields]; [InstanceState] is a string type. *)
Module Instance.
Record t := mk { State : string; Details : string }.
End Instance.

(** The five [models.Instance...] constants.  Their declaration is not
    part of the sources at hand, so they are parameters; Go rejects a
    [switch] with duplicate constant cases, hence [tags_distinct]. *)
Record InstanceTags := mkTags {
  InstanceRunning : string;
  InstanceStarting : string;
  InstanceFlapping : string;
  InstanceDown : string;
  InstanceCrashed : string
}.

Definition tag_list (tg : InstanceTags) : list string :=
  [InstanceRunning tg; InstanceStarting tg; InstanceFlapping tg;
   InstanceDown tg; InstanceCrashed tg].

Definition tags_distinct (tg : InstanceTags) : Prop := NoDup (tag_list tg).

End models.
Import models.

Definition error := string.

(** ** The outside world *)

(** Text collaborators: [cf.Name], the [terminal] colourings, [fmt] with a
    format and no operand, and [%f] applied to [d.Minutes()]. *)
Record Texts := mkTexts {
  cf_Name : string;
  CommandColor : string -> string;
  WarningColor : string -> string;
  EntityNameColor : string -> string;
  HeaderColor : string -> string;
  Username : string;                 (* cmd.config.Username() *)
  Sprintf0 : string -> string;
  fmt_minutes : Z -> string
}.

Inductive Event :=
| EvSay (text : string)                        (* cmd.ui.Say *)
| EvWarn (text : string)                       (* cmd.ui.Warn *)
| EvOk                                         (* cmd.ui.Ok *)
| EvGetApp (guid : string)                     (* cmd.appRepo.GetApp *)
| EvUpdate (guid : string) (state : string)    (* cmd.appRepo.Update *)
| EvGetInstances (guid : string)               (* cmd.appInstancesRepo.GetInstances *)
| EvShowApp (app : Application) (org space : string)
| EvSleep (d : Z)                              (* time.Sleep *)
| EvGoTail (app : Application)                 (* go cmd.TailStagingLogs *)
| EvWaitStarted                                (* loggingStartedWait.Wait() *)
| EvSendStop                                   (* stopChan <- true *)
| EvWaitDone.                                  (* loggingDoneWait.Wait() *)

(** A scripted answer: how long the call takes and what it returns. *)
Definition Answer (A : Type) : Type := (N * (A * option error))%type.

Record World := mkWorld {
  now : Z;
  appAnswers : list (Answer Application);          (* GetApp *)
  updateAnswers : list (Answer Application);       (* Update *)
  instanceAnswers : list (Answer (list Instance.t)); (* GetInstances *)
  showAnswers : list (option error);               (* ShowApp *)
  trace : list Event
}.

(** ** State-and-failure monad over the world *)

Definition M (A : Type) : Type := World -> option (A * World).

Definition ret {A} (a : A) : M A := fun w => Some (a, w).

Definition bind {A B} (m : M A) (k : A -> M B) : M B :=
  fun w => match m w with
           | Some (a, w') => k a w'
           | None => None
           end.

Notation "'do' x <- m ; k" := (bind m (fun x => k))
  (at level 10, x pattern, m at level 100, k at level 200, only parsing).
Notation "m ;; k" := (bind m (fun _ => k))
  (at level 100, k at level 200, right associativity, only parsing).

Definition emit (e : Event) : M unit :=
  fun w => Some (tt, mkWorld (now w) (appAnswers w) (updateAnswers w)
                             (instanceAnswers w) (showAnswers w)
                             (trace w ++ [e])).

Definition advance (d : Z) : M unit :=
  fun w => Some (tt, mkWorld (now w + d) (appAnswers w) (updateAnswers w)
                             (instanceAnswers w) (showAnswers w) (trace w)).

(** [time.Now()] *)
Definition time_Now : M Z := fun w => Some (now w, w).

(** [time.Since(t)] *)
Definition time_Since (t : Z) : M Z := fun w => Some (now w - t, w).

(** [time.Sleep(d)]: returns at once when [d <= 0]. *)
Definition time_Sleep (d : Z) : M unit :=
  emit (EvSleep d) ;; advance (Z.max 0 d).

Definition ui_Say (s : string) : M unit := emit (EvSay s).
Definition ui_Warn (s : string) : M unit := emit (EvWarn s).
Definition ui_Ok : M unit := emit EvOk.

Definition popApp : M (Answer Application) :=
  fun w => match appAnswers w with
           | [] => None
           | a :: rest => Some (a, mkWorld (now w) rest (updateAnswers w)
                                  (instanceAnswers w) (showAnswers w) (trace w))
           end.

Definition popUpdate : M (Answer Application) :=
  fun w => match updateAnswers w with
           | [] => None
           | a :: rest => Some (a, mkWorld (now w) (appAnswers w) rest
                                  (instanceAnswers w) (showAnswers w) (trace w))
           end.

Definition popInstances : M (Answer (list Instance.t)) :=
  fun w => match instanceAnswers w with
           | [] => None
           | a :: rest => Some (a, mkWorld (now w) (appAnswers w) (updateAnswers w)
                                  rest (showAnswers w) (trace w))
           end.

Definition popShow : M (option error) :=
  fun w => match showAnswers w with
           | [] => None
           | a :: rest => Some (a, mkWorld (now w) (appAnswers w) (updateAnswers w)
                                  (instanceAnswers w) rest (trace w))
           end.

(** [cmd.appRepo.GetApp(guid)] *)
Definition appRepo_GetApp (guid : string) : M (Application * option error) :=
  emit (EvGetApp guid) ;;
  do a <- popApp ;
  advance (Z.of_N (fst a)) ;;
  ret (snd a).

(** [cmd.appRepo.Update(guid, models.AppParams{State: &state})] *)
Definition appRepo_Update (guid state : string) : M (Application * option error) :=
  emit (EvUpdate guid state) ;;
  do a <- popUpdate ;
  advance (Z.of_N (fst a)) ;;
  ret (snd a).

(** [cmd.appInstancesRepo.GetInstances(guid)] *)
Definition appInstancesRepo_GetInstances (guid : string)
  : M (list Instance.t * option error) :=
  emit (EvGetInstances guid) ;;
  do a <- popInstances ;
  advance (Z.of_N (fst a)) ;;
  ret (snd a).

(** [cmd.appDisplayer.ShowApp(app, orgName, spaceName)] *)
Definition appDisplayer_ShowApp (app : Application) (org space : string)
  : M (option error) :=
  emit (EvShowApp app org space) ;;
  popShow.

(** The [Start] command's own timing fields. *)
Record Start := mkStart {
  LogServerConnectionTimeout : Z;
  StartupTimeout : Z;
  StagingTimeout : Z;
  PingerThrottle : Z
}.

(** ** InstanceCounter: [fetchInstanceCount] *)

(** Go's [int] is 64 bits wide and wraps around. *)
Definition int_wrap (z : Z) : Z := (z + 2 ^ 63) mod 2 ^ 64 - 2 ^ 63.

(** [x++] on an [int] *)
Definition incr (x : Z) : Z := int_wrap (x + 1).

Record instanceCount := mkCount {
  running : Z;
  starting : Z;
  startingDetails : gset string;
  flapping : Z;
  down : Z;
  crashed : Z;
  total : Z
}.

(** [instanceCount{}] *)
Definition zeroCount : instanceCount := mkCount 0 0 ∅ 0 0 0 0.

Section Counter.
Variable tg : InstanceTags.

(** One turn of the [for _, inst := range instances] loop: the [switch]
    takes the first case that matches and has no default. *)
Definition countInstance (count : instanceCount) (inst : Instance.t)
  : instanceCount :=
  let s := Instance.State inst in
  if s =? InstanceRunning tg then
    mkCount (incr (running count)) (starting count) (startingDetails count)
            (flapping count) (down count) (crashed count) (total count)
  else if s =? InstanceStarting tg then
    mkCount (running count) (incr (starting count))
            (if Instance.Details inst =? EmptyString then startingDetails count
             else {[ Instance.Details inst ]} ∪ startingDetails count)
            (flapping count) (down count) (crashed count) (total count)
  else if s =? InstanceFlapping tg then
    mkCount (running count) (starting count) (startingDetails count)
            (incr (flapping count)) (down count) (crashed count) (total count)
  else if s =? InstanceDown tg then
    mkCount (running count) (starting count) (startingDetails count)
            (flapping count) (incr (down count)) (crashed count) (total count)
  else if s =? InstanceCrashed tg then
    mkCount (running count) (starting count) (startingDetails count)
            (flapping count) (down count) (incr (crashed count)) (total count)
  else count.

(** The body of [fetchInstanceCount] once the instances are there. *)
Definition countInstances (instances : list Instance.t) : instanceCount :=
  fold_left countInstance instances
    (mkCount 0 0 ∅ 0 0 0 (Z.of_nat (length instances))).

Definition fetchInstanceCount (appGUID : string)
  : M (instanceCount * option error) :=
  do r <- appInstancesRepo_GetInstances appGUID ;
  match snd r with
  | Some apiErr => ret (zeroCount, Some apiErr)
  | None => ret (countInstances (fst r), None)
  end.

End Counter.

(** ** Texts *)

Definition nl : string := String "010"%char EmptyString.
Definition tab : string := String "009"%char EmptyString.
Definition dquote : string := String "034"%char EmptyString.

(** [strings.Join(l, sep)] *)
Fixpoint strings_Join (l : list string) (sep : string) : string :=
  match l with
  | [] => EmptyString
  | [s] => s
  | s :: rest => s ++ sep ++ strings_Join rest sep
  end.

(** [sort.Strings]: increasing byte-wise lexicographic order. *)
Definition sort_Strings (l : list string) : list string :=
  merge_sort String.le l.

Section Workflow.
Variable tx : Texts.
Variable tg : InstanceTags.
Variable cmd : Start.

(** [terminal.CommandColor(fmt.Sprintf("%s logs %s --recent", cf.Name, app.Name))] *)
Definition logsCommand (app : Application) : string :=
  CommandColor tx (cf_Name tx ++ " logs " ++ Name app ++ " --recent").

(** The error text for [StagingFailedReason == "NoAppDetectedError"]. *)
Definition noAppDetectedMessage (app : Application) : string :=
  StagingFailedReason app ++ nl ++ tab ++ tab ++ tab ++ nl
  ++ "TIP: Buildpacks are detected when the " ++ dquote
  ++ CommandColor tx (cf_Name tx ++ " push") ++ dquote
  ++ " is executed from within the directory that contains the app source code."
  ++ nl ++ nl
  ++ "Use '" ++ CommandColor tx (cf_Name tx ++ " buildpacks")
  ++ "' to see a list of supported buildpacks."
  ++ nl ++ nl
  ++ "Use '" ++ logsCommand app ++ "' for more in depth log information.".

(** The error text for every other staging-failure reason. *)
Definition stagingFailedMessage (app : Application) : string :=
  StagingFailedReason app ++ nl ++ nl
  ++ "TIP: use '" ++ logsCommand app ++ "' for more information".

(** ** StagePoller: [waitForInstancesToStage] *)

(** The [for] loop of the non-zero branch.  Each turn asks [GetApp] once,
    so a loop started with more fuel than there are scripted answers
    never stops for lack of fuel.  The result is [app] and [err] as the
    loop leaves them. *)
Fixpoint stagingLoop (fuel : nat) (stagingStartTime : Z) (app : Application)
  : M (Application * option error) :=
  do since <- time_Since stagingStartTime ;
  if negb (PackageState app =? "STAGED")
     && negb (PackageState app =? "FAILED")
     && (since <? StagingTimeout cmd)%Z
  then
    match fuel with
    | O => fun _ => None
    | S fuel' =>
        do r <- appRepo_GetApp (GUID app) ;
        match snd r with
        | Some err => ret (fst r, Some err)
        | None =>
            time_Sleep (PingerThrottle cmd) ;;
            stagingLoop fuel' stagingStartTime (fst r)
        end
    end
  else ret (app, None).

(** What follows the [if]/[else] of the two fetching branches. *)
Definition stagingVerdict (stagingStartTime : Z)
    (r : Application * option error) : M (bool * option error) :=
  let app := fst r in
  match snd r with
  | Some err => ret (false, Some err)
  | None =>
      if PackageState app =? "FAILED" then
        ui_Say EmptyString ;;
        if StagingFailedReason app =? "NoAppDetectedError"
        then ret (false, Some (noAppDetectedMessage app))
        else ret (false, Some (stagingFailedMessage app))
      else
        do since <- time_Since stagingStartTime ;
        if (since >=? StagingTimeout cmd)%Z
        then ret (false, None)
        else ret (true, None)
  end.

(** The two fetching branches: one fetch, or the polling loop. *)
Definition stagingFetch (stagingStartTime : Z) (app : Application)
  : M (Application * option error) :=
  if (StagingTimeout cmd =? 0)%Z
  then appRepo_GetApp (GUID app)
  else fun w => stagingLoop (S (length (appAnswers w))) stagingStartTime app w.

Definition waitForInstancesToStage (app : Application)
  : M (bool * option error) :=
  do stagingStartTime <- time_Now ;
  do r <- stagingFetch stagingStartTime app ;
  stagingVerdict stagingStartTime r.

(** ** InstancePoller: [waitForOneRunningInstance] *)

Definition startTimeoutMessage (app : Application) : string :=
  ("Start app timeout" ++ nl ++ nl
   ++ "TIP: Application must be listening on the right port. Instead of hard coding the port, use the $PORT environment variable."
   ++ nl ++ nl)
  ++ "Use '" ++ logsCommand app ++ "' for more information".

Definition startUnsuccessfulMessage (app : Application) : string :=
  Sprintf0 tx ("Start unsuccessful" ++ nl ++ nl
               ++ "TIP: use '" ++ logsCommand app ++ "' for more information").

(** [instancesDetails] *)
Definition instancesDetails (count : instanceCount) : string :=
  let details :=
    [Sprintf0 tx (pretty (running count) ++ " of " ++ pretty (total count)
                  ++ " instances running")] in
  let details :=
    if (starting count >? 0)%Z then
      if (size (startingDetails count) =? 0)%nat then
        (details ++ [Sprintf0 tx (pretty (starting count) ++ " starting")])%list
      else
        let info := sort_Strings (elements (startingDetails count)) in
        (details ++ [Sprintf0 tx (pretty (starting count) ++ " starting ("
                                 ++ strings_Join info ", " ++ ")")])%list
    else details in
  let details :=
    if (down count >? 0)%Z
    then (details ++ [Sprintf0 tx (pretty (down count) ++ " down")])%list
    else details in
  let details :=
    if (flapping count >? 0)%Z
    then (details ++ [Sprintf0 tx (pretty (flapping count) ++ " failing")])%list
    else details in
  let details :=
    if (crashed count >? 0)%Z
    then (details ++ [Sprintf0 tx (pretty (crashed count) ++ " crashed")])%list
    else details in
  strings_Join details ", ".

(** The [for]/[select] loop.  [timerStart] is when [time.NewTimer] was
    called: the timer's channel is ready once [StartupTimeout] has gone
    by, and [select] takes [default] only while it is not. *)
Fixpoint instanceLoop (fuel : nat) (timerStart : Z) (app : Application)
  : M (option error) :=
  do since <- time_Since timerStart ;
  if (since >=? StartupTimeout cmd)%Z then
    ret (Some (startTimeoutMessage app))
  else
    match fuel with
    | O => fun _ => None
    | S fuel' =>
        do r <- fetchInstanceCount tg (GUID app) ;
        match snd r with
        | Some err =>
            ui_Warn ("Could not fetch instance count: " ++ err) ;;
            time_Sleep (PingerThrottle cmd) ;;
            instanceLoop fuel' timerStart app
        | None =>
            let count := fst r in
            ui_Say (instancesDetails count) ;;
            if (running count >? 0)%Z then ret None
            else if (flapping count >? 0)%Z || (crashed count >? 0)%Z then
              ret (Some (startUnsuccessfulMessage app))
            else
              time_Sleep (PingerThrottle cmd) ;;
              instanceLoop fuel' timerStart app
        end
    end.

Definition waitForOneRunningInstance (app : Application) : M (option error) :=
  do timerStart <- time_Now ;
  fun w => instanceLoop (S (length (instanceAnswers w))) timerStart app w.

End Workflow.

(** ** StartOrchestrator: [WatchStaging] and [ApplicationStart] *)

Section Orchestrator.
Variable tx : Texts.
Variable tg : InstanceTags.
Variable cmd : Start.

(** The control task.  Launching the tailer, the two waits on the wait
    groups and the send on [stopChan] are recorded in the trace in the
    order the control task performs them. *)
Definition WatchStaging (app : Application) (orgName spaceName : string)
    (start : Application -> M (Application * option error))
  : M (Application * option error) :=
  emit (EvGoTail app) ;;
  emit EvWaitStarted ;;
  do r <- start app ;
  match snd r with
  | Some err => ret (zeroApplication, Some err)
  | None =>
  let updatedApp := fst r in
  do s <- waitForInstancesToStage tx cmd updatedApp ;
  match snd s with
  | Some err => ret (zeroApplication, Some err)
  | None =>
  let isStaged := fst s in
  emit EvSendStop ;;
  emit EvWaitDone ;;
  ui_Say EmptyString ;;
  if negb isStaged then
    ret (zeroApplication,
         Some (Name app ++ " failed to stage within "
               ++ fmt_minutes tx (StagingTimeout cmd) ++ " minutes"))
  else
  do e <- waitForOneRunningInstance tx tg cmd updatedApp ;
  match e with
  | Some err => ret (zeroApplication, Some err)
  | None =>
  ui_Say (HeaderColor tx (nl ++ "App started" ++ nl)) ;;
  ui_Say EmptyString ;;
  ui_Ok ;;
  do g <- appRepo_GetApp (GUID updatedApp) ;
  match snd g with
  | Some err => ret (zeroApplication, Some err)
  | None =>
  let startedApp := fst g in
  let appStartCommand :=
    if Command app =? EmptyString
    then DetectedStartCommand startedApp
    else Command startedApp in
  ui_Say (nl ++ "App " ++ EntityNameColor tx (Name startedApp)
          ++ " was started using this command `" ++ appStartCommand
          ++ "`" ++ nl) ;;
  do e <- appDisplayer_ShowApp startedApp orgName spaceName ;
  match e with
  | Some err => ret (zeroApplication, Some err)
  | None => ret (updatedApp, None)
  end end end end end.

(** The start operation [ApplicationStart] hands to [WatchStaging]. *)
Definition startCommand (orgName spaceName : string) (app : Application)
  : M (Application * option error) :=
  ui_Say ("Starting app " ++ EntityNameColor tx (Name app)
          ++ " in org " ++ EntityNameColor tx orgName
          ++ " / space " ++ EntityNameColor tx spaceName
          ++ " as " ++ EntityNameColor tx (Username tx) ++ "...") ;;
  appRepo_Update (GUID app) "STARTED".

Definition ApplicationStart (app : Application) (orgName spaceName : string)
  : M (Application * option error) :=
  if State app =? "started" then
    ui_Say (WarningColor tx ("App " ++ Name app ++ " is already started")) ;;
    ret (zeroApplication, None)
  else
    WatchStaging app orgName spaceName (startCommand orgName spaceName).

End Orchestrator.

(** ** LogTailer: [TailStagingLogs]

    The tailer's loop and the transport's connect callback run in two
    goroutines.  Here whatever happens to the tailer happens one thing at
    a time, each handled to its end before the next: the unsynchronised
    access of the two goroutines to [connectionStatus] is not part of the
    embedding. *)

Module Tailer.

Inductive ConnectionType :=
| NoConnection
| ConnectionWasEstablished
| ConnectionWasClosed
| StoppedTrying.

Definition status_eqb (a b : ConnectionType) : bool :=
  match a, b with
  | NoConnection, NoConnection => true
  | ConnectionWasEstablished, ConnectionWasEstablished => true
  | ConnectionWasClosed, ConnectionWasClosed => true
  | StoppedTrying, StoppedTrying => true
  | _, _ => false
  end.

Definition LogMessageTypeStaging : string := "STG".

(** A [logs.Loggable], seen through the two methods the tailer calls. *)
Record Loggable := mkLoggable {
  GetSourceName : string;
  ToSimpleLog : string
}.

(** What can happen to a running tailer: the transport calls the connect
    callback, or one of the four [select] cases becomes ready. *)
Inductive Happening :=
| OnConnect                     (* the transport calls [onConnect] *)
| TimerFired                    (* [<-timer.C] *)
| Message (msg : Loggable)      (* [msg, ok := <-c] with [ok] *)
| MessagesClosed                (* [msg, ok := <-c] with [!ok] *)
| StreamError (err : error)     (* [err, ok := <-e] with [ok] *)
| ErrorsClosed                  (* [err, ok := <-e] with [!ok] *)
| StopSignal.                   (* [<-stopChan] *)

(** The tailer's variables and what it has done so far. *)
Record State := mkState {
  connectionStatus : ConnectionType;
  startDone : nat;        (* calls of [startWait.Done()] *)
  doneDone : nat;         (* calls of [doneWait.Done()] *)
  closeCalls : nat;       (* calls of [cmd.logRepo.Close()] *)
  returned : bool;        (* the [for]/[select] loop has returned *)
  output : list Event     (* what went to the UI *)
}.

Definition initial : State :=
  mkState NoConnection 0 0 0 false [].

(** [connectionStatus = c] *)
Definition setStatus (c : ConnectionType) (st : State) : State :=
  mkState c (startDone st) (doneDone st) (closeCalls st) (returned st)
          (output st).

(** [startWait.Done()] *)
Definition signalReady (st : State) : State :=
  mkState (connectionStatus st) (S (startDone st)) (doneDone st)
          (closeCalls st) (returned st) (output st).

(** [cmd.logRepo.Close()] *)
Definition closeLogs (st : State) : State :=
  mkState (connectionStatus st) (startDone st) (doneDone st)
          (S (closeCalls st)) (returned st) (output st).

(** [cmd.ui.Say] and [cmd.ui.Warn] *)
Definition show (e : Event) (st : State) : State :=
  mkState (connectionStatus st) (startDone st) (doneDone st)
          (closeCalls st) (returned st) (output st ++ [e]).

(** [return] inside the loop: the deferred [doneWait.Done()] runs. *)
Definition leave (st : State) : State :=
  mkState (connectionStatus st) (startDone st) (S (doneDone st))
          (closeCalls st) true (output st).

(** The closure [onConnect].  It belongs to the transport and runs
    whether or not the loop is still there. *)
Definition onConnect (st : State) : State :=
  if negb (status_eqb (connectionStatus st) StoppedTrying)
  then signalReady (setStatus ConnectionWasEstablished st)
  else st.

(** One turn of the [select]. *)
Definition selectCase (st : State) (h : Happening) : State :=
  match h with
  | OnConnect => st
  | TimerFired =>
      if status_eqb (connectionStatus st) NoConnection then
        leave (signalReady
                 (show (EvWarn "timeout connecting to log server, no log will be shown")
                    (setStatus StoppedTrying st)))
      else st
  | Message msg =>
      if GetSourceName msg =? LogMessageTypeStaging
      then show (EvSay (ToSimpleLog msg)) st
      else st
  | MessagesClosed => leave st
  | StreamError err =>
      if negb (status_eqb (connectionStatus st) ConnectionWasClosed) then
        let st1 := show (EvSay err)
                     (show (EvWarn "Warning: error tailing logs") st) in
        if status_eqb (connectionStatus st1) NoConnection
        then leave (signalReady st1)
        else leave st1
      else st
  | ErrorsClosed => st
  | StopSignal =>
      if status_eqb (connectionStatus st) ConnectionWasEstablished
      then closeLogs (setStatus ConnectionWasClosed st)
      else leave st
  end.

(** A happening reaches the [select] only while the loop is there; the
    connect callback is the transport's and runs in any case. *)
Definition step (st : State) (h : Happening) : State :=
  match h with
  | OnConnect => onConnect st
  | _ => if returned st then st else selectCase st h
  end.

(** [TailStagingLogs] under a given order of happenings. *)
Definition TailStagingLogs (hs : list Happening) : State :=
  fold_left step hs initial.

Definition isConnect (h : Happening) : bool :=
  match h with OnConnect => true | _ => false end.

End Tailer.

(** ** The rest of the [Start] command *)

(** [time.Second], in nanoseconds. *)
Definition time_Second : Z := 1000000000.

(** [SetStartTimeoutInSeconds]: [time.Duration(timeout) * time.Second].
    [timeout] is a Go [int], the product is one of 64-bit integers and
    wraps around. *)
Definition SetStartTimeoutInSeconds (timeout : Z) (cmd : Start) : Start :=
  mkStart (LogServerConnectionTimeout cmd)
          (int_wrap (timeout * time_Second))
          (StagingTimeout cmd)
          (PingerThrottle cmd).

(** [Execute]: [ApplicationStart] on the application of the requirement,
    with the organization and space names of the configuration; the
    application returned is dropped. *)
Definition Execute (tx : Texts) (tg : InstanceTags) (cmd : Start)
    (app : Application) (orgName spaceName : string) : M (option error) :=
  do r <- ApplicationStart tx tg cmd app orgName spaceName ;
  ret (snd r).

(** ** Requirements (package [requirements]) and the command runner
       (package [rpc])

    Commands, their flags and their requirements act on the configuration,
    the repositories and the UI, and any of them may panic.  All of that
    is the state [St] of this section, left abstract; a call returns a
    value and the state it leaves, or panics. *)

Module rpc.
Section Runner.
Variable St : Type.

(** What a Go [panic] carries: a run-time error of the language, or the
    value handed to [panic]. *)
Inductive PanicValue :=
| IndexOutOfRange
| Raised (v : string).

(** [%v] of a recovered panic value. *)
Variable fmt_v : PanicValue -> string.

Inductive Outcome (A : Type) :=
| Returns (a : A) (s : St)
| Panics (v : PanicValue) (s : St).
Arguments Returns {A} a s.
Arguments Panics {A} v s.

Definition Act (A : Type) : Type := St -> Outcome A.

Definition pure {A} (a : A) : Act A := fun s => Returns a s.

Definition andThen {A B} (m : Act A) (k : A -> Act B) : Act B :=
  fun s => match m s with
           | Returns a s' => k a s'
           | Panics v s' => Panics v s'
           end.

(** [requirements.Requirement]: the method [Execute() error]. *)
Definition Requirement : Type := Act (option error).

(** [NewUsageRequirement(cmd, errorMessage, pred)].  [pred] and
    [cmd.Usage] are calls into the command. *)
Definition NewUsageRequirement (Usage : Act string) (errorMessage : string)
    (pred : Act bool) : Requirement :=
  andThen pred (fun failed =>
    if failed then
      andThen Usage (fun usage =>
        pure (Some ("Incorrect Usage" ++ ". " ++ errorMessage
                    ++ nl ++ nl ++ usage)))
    else pure None).

(** What [Command] uses of a command once its dependencies are set. *)
Record ReadyCommand := mkReady {
  Requirements : list string -> Act (list Requirement);
  Execute : list string -> Act (option error)
}.

(** What [Command] uses of a registered command: the parser of a flag
    context made of its flags, and [SetDependency]. *)
Record RegisteredCommand := mkRegistered {
  Parse : list string -> Act (option error);
  SetDependency : bool -> Act ReadyCommand
}.

(** The [for _, r := range reqs] loop of [Command]. *)
Fixpoint executeAll (reqs : list Requirement) : Act (option error) :=
  match reqs with
  | [] => pure None
  | r :: reqs' =>
      andThen r (fun err =>
        match err with
        | Some e => pure (Some e)
        | None => executeAll reqs'
        end)
  end.

(** The deferred function of [Command]: a panic in what follows the
    [defer] becomes the error the function returns. *)
Definition recovering (m : Act (option error)) : Act (option error) :=
  fun s => match m s with
           | Returns a s' => Returns a s'
           | Panics v s' => Returns (Some ("command panic: " ++ fmt_v v)) s'
           end.

(** [commandRunner.Command(args, deps, pluginApiCall)], with the command
    registry as the lookup [registry]. *)
Definition Command (registry : string -> option RegisteredCommand)
    (args : list string) (pluginApiCall : bool) : Act (option error) :=
  match args with
  | [] => fun s => Panics IndexOutOfRange s
  | name :: flagArgs =>
      match registry name with
      | None => pure None
      | Some registered =>
          andThen (Parse registered flagArgs) (fun err =>
            match err with
            | Some e => pure (Some e)
            | None =>
                andThen (SetDependency registered pluginApiCall) (fun cfCmd =>
                andThen (Requirements cfCmd flagArgs) (fun reqs =>
                andThen (executeAll reqs) (fun err =>
                  match err with
                  | Some e => pure (Some e)
                  | None => recovering (Execute cfCmd flagArgs)
                  end)))
            end)
      end
  end.

End Runner.

Arguments Returns {St A} a s.
Arguments Panics {St A} v s.
Arguments pure {St A} a.
Arguments andThen {St A B} m k.
Arguments mkReady {St} _ _.
Arguments mkRegistered {St} _ _.
Arguments Requirements {St} _.
Arguments Execute {St} _.
Arguments Parse {St} _.
Arguments SetDependency {St} _.
Arguments executeAll {St} reqs.
Arguments NewUsageRequirement {St} Usage errorMessage pred.

End rpc.

(** ** The progress reader (package [net])

    [ProgressReader] wraps a reader and prints how much was read.  What
    the wrapped reader returns is the outside world's and comes with each
    call.  The printing goroutine is seen from the reader's side: it is
    not started ([pr.quit] is nil), or in its loop, where it takes a send
    on [quit] whenever there is one, or it has returned, and then a send
    on the unbuffered [quit] blocks for good. *)

Module net.
Section ProgressReading.

(** [formatters.ByteSize] *)
Variable ByteSize : Z -> string.

Inductive Output :=
| PrintCapturingNoOutput (text : string)   (* pr.ui.PrintCapturingNoOutput *)
| Say (text : string).                     (* pr.ui.Say *)

(** The text of [os.ErrInvalid]. *)
Definition ErrInvalid : error := "invalid argument".

Definition cr : string := String "013"%char EmptyString.

Inductive Printer :=
| NotStarted      (* [pr.quit == nil] *)
| Printing        (* [printProgress] is in its loop *)
| Finished.       (* [printProgress] has returned *)

Record ProgressReader := mkProgressReader {
  hasReader : bool;       (* [pr.r != nil] *)
  bytesRead : Z;          (* int64 *)
  total : Z;              (* int64 *)
  quit : Printer;
  ui : list Output
}.

(** A call returns, blocks for good, or panics. *)
Inductive Outcome (A : Type) :=
| Returns (a : A) (pr : ProgressReader)
| Blocks (pr : ProgressReader)
| Panics (pr : ProgressReader).
Arguments Returns {A} a pr.
Arguments Blocks {A} pr.
Arguments Panics {A} pr.

(** [NewProgressReader(r, ui, outputInterval)] *)
Definition NewProgressReader (hasReader : bool) : ProgressReader :=
  mkProgressReader hasReader 0 0 NotStarted [].

(** [SetTotalSize] *)
Definition SetTotalSize (size : Z) (pr : ProgressReader) : ProgressReader :=
  mkProgressReader (hasReader pr) (bytesRead pr) size (quit pr) (ui pr).

Definition setBytesRead (n : Z) (pr : ProgressReader) : ProgressReader :=
  mkProgressReader (hasReader pr) n (total pr) (quit pr) (ui pr).

(** [pr.quit = make(chan bool); go pr.printProgress(pr.quit)], done only
    when [pr.quit == nil]. *)
Definition startPrinter (pr : ProgressReader) : ProgressReader :=
  match quit pr with
  | NotStarted =>
      mkProgressReader (hasReader pr) (bytesRead pr) (total pr) Printing (ui pr)
  | _ => pr
  end.

(** [pr.quit <- true].  The goroutine in its loop takes it, overwrites the
    line, says it is done and returns. *)
Definition sendQuit (pr : ProgressReader) : Outcome unit :=
  match quit pr with
  | Printing =>
      Returns tt
        (mkProgressReader (hasReader pr) (bytesRead pr) (total pr) Finished
           (ui pr ++ [PrintCapturingNoOutput
                        (cr ++ "                             ");
                      Say (cr ++ "Done uploading")]))
  | _ => Blocks pr
  end.

(** A tick of the printer's ticker: [case <-timer.C]. *)
Definition Tick (pr : ProgressReader) : ProgressReader :=
  match quit pr with
  | Printing =>
      mkProgressReader (hasReader pr) (bytesRead pr) (total pr) Printing
        (ui pr ++ [PrintCapturingNoOutput
                     (cr ++ ByteSize (bytesRead pr) ++ " uploaded...")])
  | _ => pr
  end.

(** [Read(p)], where [answer] is what [pr.r.Read(p)] returns. *)
Definition Read (answer : Z * option error) (pr : ProgressReader)
  : Outcome (Z * option error) :=
  if negb (hasReader pr) then Returns (0, Some ErrInvalid) pr
  else
    let n := fst answer in
    if (total pr >? 0)%Z then
      if (n >? 0)%Z then
        let pr1 := startPrinter pr in
        let pr2 := setBytesRead (int_wrap (bytesRead pr1 + n)) pr1 in
        if (total pr2 <=? bytesRead pr2)%Z then
          match sendQuit pr2 with
          | Returns _ pr3 => Returns answer pr3
          | Blocks pr3 => Blocks pr3
          | Panics pr3 => Panics pr3
          end
        else Returns answer pr2
      else Returns answer pr
    else Returns answer pr.

(** [Seek(offset, whence)], where [answer] is what [pr.r.Seek] returns;
    a method call on a nil interface panics. *)
Definition Seek (answer : Z * option error) (pr : ProgressReader)
  : Outcome (Z * option error) :=
  if hasReader pr
  then Returns answer (setBytesRead (fst answer) pr)
  else Panics pr.

(** [Close()], where [answer] is what [pr.r.Close()] returns. *)
Definition Close (answer : option error) (pr : ProgressReader)
  : Outcome (option error) :=
  let closeReader (pr' : ProgressReader) :=
    if hasReader pr' then Returns answer pr' else Panics pr' in
  match quit pr with
  | NotStarted => closeReader pr
  | _ =>
      match sendQuit pr with
      | Returns _ pr' => closeReader pr'
      | Blocks pr' => Blocks pr'
      | Panics pr' => Panics pr'
      end
  end.

(** Reads one after the other, as long as they return. *)
Fixpoint readAll (answers : list (Z * option error)) (pr : ProgressReader)
  : Outcome (list (Z * option error)) :=
  match answers with
  | [] => Returns [] pr
  | answer :: answers' =>
      match Read answer pr with
      | Returns a pr' =>
          match readAll answers' pr' with
          | Returns l pr'' => Returns (a :: l) pr''
          | Blocks pr'' => Blocks pr''
          | Panics pr'' => Panics pr''
          end
      | Blocks pr' => Blocks pr'
      | Panics pr' => Panics pr'
      end
  end.

(** The bytes the reads [answers] deliver. *)
Definition delivered (answers : list (Z * option error)) : Z :=
  fold_right (fun a t => Z.max 0 (fst a) + t) 0 answers.

End ProgressReading.

Arguments Returns {A} a pr.
Arguments Blocks {A} pr.
Arguments Panics {A} pr.

End net.

(** * Vocabulary of the properties *)

(** ** LogTailer *)

Module TailerRuns.
Import Tailer.

(** The tailer after the happenings [hs], from the state [st]. *)
Definition run (st : State) (hs : list Happening) : State :=
  fold_left step hs st.

(** The connect callback is not among the happenings. *)
Definition noConnect (hs : list Happening) : Prop :=
  Forall (fun h => isConnect h = false) hs.


End TailerRuns.

(** ** InstanceCounter *)

(** How many instances of [l] carry the state tag [tag]. *)
Definition tagged (tag : string) (l : list Instance.t) : Z :=
  Z.of_nat (length (List.filter (fun i => Instance.State i =? tag) l)).

(** How many instances of [l] carry none of the five tags. *)
Definition unrecognized (tg : InstanceTags) (l : list Instance.t) : Z :=
  Z.of_nat (length (List.filter
    (fun i => negb (existsb (String.eqb (Instance.State i)) (tag_list tg))) l)).

(** The counters of [c] are non-negative and leave room for [n] more
    instances in an [int]. *)
Definition fits (c : instanceCount) (n : nat) : Prop :=
  0 <= running c /\ 0 <= starting c /\ 0 <= flapping c
  /\ 0 <= down c /\ 0 <= crashed c
  /\ running c + Z.of_nat n < 2 ^ 63
  /\ starting c + Z.of_nat n < 2 ^ 63
  /\ flapping c + Z.of_nat n < 2 ^ 63
  /\ down c + Z.of_nat n < 2 ^ 63
  /\ crashed c + Z.of_nat n < 2 ^ 63.

(** ** The world after a step *)

Definition afterEmit (e : Event) (w : World) : World :=
  mkWorld (now w) (appAnswers w) (updateAnswers w) (instanceAnswers w)
          (showAnswers w) (trace w ++ [e]).

Definition afterSleep (d : Z) (w : World) : World :=
  mkWorld (now w + Z.max 0 d) (appAnswers w) (updateAnswers w)
          (instanceAnswers w) (showAnswers w) (trace w ++ [EvSleep d]).

(** [GetApp] took [d] and left the answers [rest]. *)
Definition afterGetApp (guid : string) (d : N)
    (rest : list (Answer Application)) (w : World) : World :=
  mkWorld (now w + Z.of_N d) rest (updateAnswers w) (instanceAnswers w)
          (showAnswers w) (trace w ++ [EvGetApp guid]).

(** [GetInstances] took [d] and left the answers [rest]. *)
Definition afterGetInstances (guid : string) (d : N)
    (rest : list (Answer (list Instance.t))) (w : World) : World :=
  mkWorld (now w + Z.of_N d) (appAnswers w) (updateAnswers w) rest
          (showAnswers w) (trace w ++ [EvGetInstances guid]).

(** ** StagePoller *)

(** The condition of the polling loop, at the clock reading of [w]. *)
Definition keepPolling (cmd : Start) (stagingStartTime : Z)
    (app : Application) (w : World) : bool :=
  negb (PackageState app =? "STAGED")
  && negb (PackageState app =? "FAILED")
  && (now w - stagingStartTime <? StagingTimeout cmd)%Z.

(** The error [waitForInstancesToStage] makes of a failed staging. *)
Definition stagingFailure (tx : Texts) (app : Application) : error :=
  if StagingFailedReason app =? "NoAppDetectedError"
  then noAppDetectedMessage tx app
  else stagingFailedMessage tx app.

(** The staging of [app] is neither done nor failed. *)
Definition stillStaging (app : Application) : Prop :=
  PackageState app <> "STAGED" /\ PackageState app <> "FAILED".

(** A status fetch that succeeds and shows a staging still under way. *)
Definition stagingAnswer (a : Answer Application) : Prop :=
  snd (snd a) = None /\ stillStaging (fst (snd a)).

(** ** InstancePoller *)

(** An answer the instance poller polls again after: the fetch failed, or
    the snapshot shows nothing running, flapping or crashed. *)
Definition inconclusive (tg : InstanceTags)
    (a : Answer (list Instance.t)) : Prop :=
  match snd (snd a) with
  | Some _ => True
  | None =>
      let count := countInstances tg (fst (snd a)) in
      running count <= 0 /\ flapping count <= 0 /\ crashed count <= 0
  end.

(** A failed fetch. *)
Definition failedFetch (a : Answer (list Instance.t)) : Prop :=
  snd (snd a) <> None.

(** The time a run of polls takes: each fetch and the sleep after it. *)
Definition pollTime (cmd : Start) (answers : list (Answer (list Instance.t)))
  : Z :=
  fold_right (fun a t => Z.of_N (fst a) + Z.max 0 (PingerThrottle cmd) + t)
             0 answers.

(** What one poll that is polled again after leaves in the trace. *)
Definition pollEvents (tx : Texts) (tg : InstanceTags) (cmd : Start)
    (guid : string) (a : Answer (list Instance.t)) : list Event :=
  [EvGetInstances guid;
   match snd (snd a) with
   | Some err => EvWarn ("Could not fetch instance count: " ++ err)
   | None => EvSay (instancesDetails tx (countInstances tg (fst (snd a))))
   end;
   EvSleep (PingerThrottle cmd)].

(** The world after the polls [answers], all polled again after. *)
Definition afterPolls (tx : Texts) (tg : InstanceTags) (cmd : Start)
    (guid : string) (answers rest : list (Answer (list Instance.t)))
    (w : World) : World :=
  mkWorld (now w + pollTime cmd answers) (appAnswers w) (updateAnswers w)
          rest (showAnswers w)
          (trace w ++ flat_map (pollEvents tx tg cmd guid) answers).

(** ** StartOrchestrator *)

(** The world in which [WatchStaging] calls the start operation: the
    tailer is launched and the wait for its ready signal is over. *)
Definition tailing (app : Application) (w : World) : World :=
  afterEmit EvWaitStarted (afterEmit (EvGoTail app) w).

(** The world after the tailer was told to stop and was waited for. *)
Definition drained (w : World) : World :=
  afterEmit (EvSay EmptyString) (afterEmit EvWaitDone (afterEmit EvSendStop w)).

(** ** LogTailer: what reaches the UI *)

Module TailerWords.
Import Tailer.

(** What the messages among the happenings [hs] put on the UI: the
    simple log of each message whose source is the staging one. *)
Definition shown (hs : list Happening) : list Event :=
  flat_map (fun h =>
              match h with
              | Message msg =>
                  if GetSourceName msg =? LogMessageTypeStaging
                  then [EvSay (ToSimpleLog msg)]
                  else []
              | _ => []
              end) hs.

(** Messages, and the error channel being closed. *)
Definition isQuiet (h : Happening) : Prop :=
  match h with
  | Message _ | ErrorsClosed => True
  | _ => False
  end.

(** What a connected tailer lives through: messages, the connection
    timer, the error channel being closed. *)
Definition isTraffic (h : Happening) : Prop :=
  match h with
  | Message _ | TimerFired | ErrorsClosed => True
  | _ => False
  end.

(** Traffic, and errors on the stream. *)
Definition isTrafficOrError (h : Happening) : Prop :=
  match h with
  | Message _ | TimerFired | ErrorsClosed | StreamError _ => True
  | _ => False
  end.

(** The tailer has no connection and never had one. *)
Definition unconnected (st : State) : Prop :=
  connectionStatus st = NoConnection \/ connectionStatus st = StoppedTrying.

End TailerWords.

(** ** InstanceCounter: the details of starting instances *)

(** The non-empty details of the instances of [l] that carry the tag
    [starting], as a set. *)
Definition startingDetailsOf (starting : string) (l : list Instance.t)
  : gset string :=
  list_to_set
    (map Instance.Details
       (List.filter (fun i => (Instance.State i =? starting)
                              && negb (Instance.Details i =? EmptyString)) l)).

(** The snapshot of [l], field by field. *)
Definition snapshotOf (tg : InstanceTags) (l : list Instance.t)
  : instanceCount :=
  mkCount (tagged (InstanceRunning tg) l)
          (tagged (InstanceStarting tg) l)
          (startingDetailsOf (InstanceStarting tg) l)
          (tagged (InstanceFlapping tg) l)
          (tagged (InstanceDown tg) l)
          (tagged (InstanceCrashed tg) l)
          (Z.of_nat (length l)).

(** ** What a computation adds to the trace *)

(** [m] only adds to the trace, and every event it adds is in [P]. *)
Definition emits {A} (P : Event -> Prop) (m : M A) : Prop :=
  forall w a w', m w = Some (a, w') ->
    exists evs, trace w' = (trace w ++ evs)%list /\ Forall P evs.

(** The events of the start operation, of the stage poller, of the
    instance poller and of the final report. *)
Definition startEvent (e : Event) : Prop :=
  match e with EvSay _ | EvUpdate _ _ => True | _ => False end.

Definition stagingEvent (e : Event) : Prop :=
  match e with EvGetApp _ | EvSleep _ | EvSay _ => True | _ => False end.

Definition instanceEvent (e : Event) : Prop :=
  match e with
  | EvGetInstances _ | EvWarn _ | EvSay _ | EvSleep _ => True
  | _ => False
  end.

Definition reportEvent (e : Event) : Prop :=
  match e with
  | EvSay _ | EvOk | EvGetApp _ | EvShowApp _ _ _ => True
  | _ => False
  end.

(** What [WatchStaging] does before it stops the tailer: the start
    operation and the staging poll. *)
Definition beforeDrain (e : Event) : Prop :=
  match e with
  | EvSay _ | EvUpdate _ _ | EvGetApp _ | EvSleep _ => True
  | _ => False
  end.

(** What it does after the tailer is gone: the instance poll and the
    report. *)
Definition afterDrain (e : Event) : Prop :=
  match e with
  | EvGetInstances _ | EvWarn _ | EvSay _ | EvSleep _
  | EvOk | EvGetApp _ | EvShowApp _ _ _ => True
  | _ => False
  end.

(** ** The pollers: how often they ask *)

(** The number of [GetApp] calls between the worlds [w] and [w']. *)
Definition appFetches (w w' : World) : nat :=
  length (appAnswers w) - length (appAnswers w').

(** The number of [GetInstances] calls between the worlds [w] and [w']. *)
Definition instanceFetches (w w' : World) : nat :=
  length (instanceAnswers w) - length (instanceAnswers w').

(** ** StagePoller: a run of polls *)

(** The time a run of staging polls takes. *)
Definition stagePollTime (cmd : Start) (answers : list (Answer Application))
  : Z :=
  fold_right (fun a t => Z.of_N (fst a) + Z.max 0 (PingerThrottle cmd) + t)
             0 answers.

(** The record the loop holds after the polls [answers]: the last one
    fetched, or the one it started with. *)
Definition lastFetched (app : Application) (answers : list (Answer Application))
  : Application :=
  List.last (map (fun a => fst (snd a)) answers) app.

(** The world after the polls [answers], each followed by its sleep.  Each
    fetch asks for the GUID of the record the loop holds at that time. *)
Fixpoint afterStagePolls (cmd : Start) (app : Application)
    (answers rest : list (Answer Application)) (w : World) : World :=
  match answers with
  | [] => w
  | a :: answers' =>
      afterStagePolls cmd (fst (snd a)) answers' rest
        (afterSleep (PingerThrottle cmd)
           (afterGetApp (GUID app) (fst a) (answers' ++ rest) w))
  end.

(** ** StartOrchestrator: the start request and the report *)

(** The line [ApplicationStart] says before it asks for the start. *)
Definition startingMessage (tx : Texts) (app : Application)
    (orgName spaceName : string) : string :=
  "Starting app " ++ EntityNameColor tx (Name app)
  ++ " in org " ++ EntityNameColor tx orgName
  ++ " / space " ++ EntityNameColor tx spaceName
  ++ " as " ++ EntityNameColor tx (Username tx) ++ "...".

(** What [WatchStaging] does at first, with the start operation of
    [ApplicationStart]: launch the tailer, wait for its ready signal,
    announce the start and ask for it. *)
Definition startRequest (tx : Texts) (app : Application)
    (orgName spaceName : string) : list Event :=
  [EvGoTail app; EvWaitStarted;
   EvSay (startingMessage tx app orgName spaceName);
   EvUpdate (GUID app) "STARTED"].

(** The end of [WatchStaging], once an instance is running: the report. *)
Definition report (tx : Texts) (app updatedApp : Application)
    (orgName spaceName : string) : M (Application * option error) :=
  ui_Say (HeaderColor tx (nl ++ "App started" ++ nl)) ;;
  ui_Say EmptyString ;;
  ui_Ok ;;
  do g <- appRepo_GetApp (GUID updatedApp) ;
  match snd g with
  | Some err => ret (zeroApplication, Some err)
  | None =>
      let startedApp := fst g in
      let appStartCommand :=
        if Command app =? EmptyString
        then DetectedStartCommand startedApp
        else Command startedApp in
      ui_Say (nl ++ "App " ++ EntityNameColor tx (Name startedApp)
              ++ " was started using this command `" ++ appStartCommand
              ++ "`" ++ nl) ;;
      do e <- appDisplayer_ShowApp startedApp orgName spaceName ;
      match e with
      | Some err => ret (zeroApplication, Some err)
      | None => ret (updatedApp, None)
      end
  end.

(** ** Sample data *)

Module Sample.

(** The tags as [cf/models] spells them. *)
Definition tags : InstanceTags :=
  mkTags "running" "starting" "flapping" "down" "crashed".

Definition second : Z := 1000000000.
Definition minute : Z := 60 * second.

(** Plain collaborators: no colour, [cf] as the binary's name, whole
    minutes printed the way [%f] prints them. *)
Definition texts : Texts :=
  mkTexts "cf" (fun s => s) (fun s => s) (fun s => s) (fun s => s)
          "admin" (fun s => s)
          (fun d => pretty (d / minute) ++ ".000000").

Definition app (state packageState reason : string) : Application :=
  mkApplication "app-guid" "dora" state packageState reason
                EmptyString EmptyString.

Definition stopped : Application := app "stopped" "PENDING" EmptyString.
Definition pending : Application := app "started" "PENDING" EmptyString.
Definition staged : Application := app "started" "STAGED" EmptyString.
Definition failed (reason : string) : Application :=
  app "started" "FAILED" reason.
Definition alreadyStarted : Application := app "started" "STAGED" EmptyString.

Definition inst (state : string) : Instance.t :=
  Instance.mk state EmptyString.

(** The defaults of [SetDependency]: 20 s to reach the log server,
    5 min to start, 15 min to stage, a poll every 5 s. *)
Definition defaults : Start :=
  mkStart (20 * second) (5 * minute) (15 * minute) (5 * second).

(** [CF_STAGING_TIMEOUT=0] *)
Definition noStagingWait : Start :=
  mkStart (20 * second) (5 * minute) 0 (5 * second).

(** [CF_STAGING_TIMEOUT=1] *)
Definition oneMinute : Start :=
  mkStart (20 * second) (5 * minute) (1 * minute) (5 * second).

Definition world (apps updates : list (Answer Application))
    (insts : list (Answer (list Instance.t))) (shows : list (option error))
  : World :=
  mkWorld 0 apps updates insts shows [].

(** An answer that takes one second. *)
Definition after1s {A} (a : A) (err : option error) : Answer A :=
  (1000000000%N, (a, err)).

End Sample.

(** Staging that is seen to be done at the last poll before the deadline:
    with one minute to stage, a poll every five seconds and an answer
    after one second each, the tenth answer arrives 55 s after the start
    and the sleep that follows ends at 60 s. *)
Definition lateStaging : World :=
  Sample.world
    (repeat (Sample.after1s Sample.pending None) 9
     ++ [Sample.after1s Sample.staged None]) [] [] [].

(** Staging that is seen to be done at the second poll. *)
Definition quickStaging : World :=
  Sample.world [Sample.after1s Sample.pending None;
                Sample.after1s Sample.staged None] [] [] [].

(** Staging that never gets done: thirteen polls, all pending. *)
Definition stuckStaging : World :=
  Sample.world (repeat (Sample.after1s Sample.pending None) 13) [] [] [].

(** An application that comes up at the third poll: nothing yet, one
    instance starting, one instance running. *)
Definition slowStart : World :=
  Sample.world [] []
    [Sample.after1s [] None;
     Sample.after1s [Sample.inst "starting"] None;
     Sample.after1s [Sample.inst "running"] None;
     Sample.after1s [Sample.inst "crashed"] None] [].

(** An application whose only instance crashes. *)
Definition crashingStart : World :=
  Sample.world [] []
    [Sample.after1s [Sample.inst "starting"] None;
     Sample.after1s [Sample.inst "crashed"] None;
     Sample.after1s [Sample.inst "running"] None] [].

(** Three failed fetches, then a running instance. *)
Definition flakyFetch : World :=
  Sample.world [] []
    [Sample.after1s [] (Some "502 Bad Gateway");
     Sample.after1s [] (Some "502 Bad Gateway");
     Sample.after1s [] (Some "connection reset");
     Sample.after1s [Sample.inst "running"] None] [].

(** The cloud controller refuses the update that is to start the app. *)
Definition refusedStart : World :=
  Sample.world []
    [Sample.after1s zeroApplication (Some "CF-AppStoppedStatsError")] [] [].

(** The start is accepted and the first status fetch shows a staging that
    failed. *)
Definition failedStaging : World :=
  Sample.world [Sample.after1s (Sample.failed "BuildpackCompileFailed") None]
    [Sample.after1s Sample.pending None] [] [].

(** The start is accepted and the staging never gets done. *)
Definition stuckStart : World :=
  Sample.world (repeat (Sample.after1s Sample.pending None) 13)
    [Sample.after1s Sample.pending None] [] [].

(** Four instances, one of them in a state the counter does not know. *)
Definition mixedInstances : list Instance.t :=
  [Sample.inst "running"; Instance.mk "starting" "waiting for droplet";
   Sample.inst "evacuating"; Sample.inst "crashed"].

(** One status fetch of an application that is still staging, and one of
    an application that is staged. *)
Definition oneFetchPending : World :=
  Sample.world [Sample.after1s Sample.pending None] [] [] [].

Definition oneFetchStaged : World :=
  Sample.world [Sample.after1s Sample.staged None] [] [] [].

(** One fetch of the four instances. *)
Definition oneFetchMixed : World :=
  Sample.world [] [] [Sample.after1s mixedInstances None] [].

(** The start is accepted, the third status fetch fails. *)
Definition brokenPoll : World :=
  Sample.world
    [Sample.after1s Sample.pending None;
     Sample.after1s Sample.pending None;
     Sample.after1s zeroApplication (Some "503 Service Unavailable");
     Sample.after1s Sample.staged None] [] [] [].

(** A start that goes all the way: the update is accepted, the staging is
    done at the second poll, an instance runs at the second poll, the
    record is fetched again and shown. *)
Definition goodStart : World :=
  Sample.world
    [Sample.after1s Sample.pending None;
     Sample.after1s Sample.staged None;
     Sample.after1s Sample.staged None]
    [Sample.after1s Sample.pending None]
    [Sample.after1s [Sample.inst "starting"] None;
     Sample.after1s [Sample.inst "running"] None]
    [None].

(** A command line session for the runner: the state is the list of what
    was done, most recent last. *)
Module SampleRunner.
Import rpc.

Definition log (what : string) {A} (a : A) : Act (list string) A :=
  fun s => Returns a (s ++ [what])%list.

Definition fmt_v (v : PanicValue) : string :=
  match v with
  | IndexOutOfRange => "runtime error: index out of range"
  | Raised text => text
  end.

(** The three requirements of the sample command: logged in, a usage
    check that fails when no argument is given, a targeted space. *)
Definition loginRequirement : Requirement (list string) :=
  log "login requirement" None.

Definition usageRequirement (args : list string) : Requirement (list string) :=
  NewUsageRequirement (log "Usage" "cf push APP_NAME") "Requires an argument"
    (log "pred" (match args with [] => true | _ => false end)).

Definition spaceRequirement : Requirement (list string) :=
  log "space requirement" None.

(** A command whose [Execute] panics. *)
Definition push : ReadyCommand (list string) :=
  mkReady
    (fun args =>
       log "Requirements"
         [loginRequirement; usageRequirement args; spaceRequirement])
    (fun _ => fun s => Panics (Raised "assignment to entry in nil map")
                              (s ++ ["Execute"])%list).

Definition pushRegistered : RegisteredCommand (list string) :=
  mkRegistered (fun _ => log "Parse" None)
               (fun _ => log "SetDependency" push).

Definition registry (name : string)
  : option (RegisteredCommand (list string)) :=
  if name =? "push" then Some pushRegistered else None.

End SampleRunner.

(** * Properties *)

(** ** Running the primitives *)

Lemma bind_run {A B} (m : M A) (k : A -> M B) w :
  bind m k w = match m w with
               | Some (a, w') => k a w'
               | None => None
               end.
Proof. reflexivity. Qed.

Lemma emit_run e w : emit e w = Some (tt, afterEmit e w).
Proof. reflexivity. Qed.

(** One [emit e ;; k] at the head of a running computation. *)
Ltac emit_step := rewrite bind_run, emit_run; cbv beta iota.

Lemma time_Sleep_run d w : time_Sleep d w = Some (tt, afterSleep d w).
Proof. reflexivity. Qed.

Lemma appRepo_GetApp_run guid w d r rest :
  appAnswers w = (d, r) :: rest ->
  appRepo_GetApp guid w = Some (r, afterGetApp guid d rest w).
Proof.
  intros H. unfold appRepo_GetApp, popApp, bind, emit, advance, ret.
  cbn [appAnswers]. now rewrite H.
Qed.

(** A repository that has no answer left: the call does not return. *)
Lemma appRepo_GetApp_silent guid w :
  appAnswers w = [] -> appRepo_GetApp guid w = None.
Proof.
  intros H. unfold appRepo_GetApp, popApp, bind, emit.
  cbn [appAnswers]. now rewrite H.
Qed.

Lemma fetchInstanceCount_run tg guid w d r rest :
  instanceAnswers w = (d, r) :: rest ->
  fetchInstanceCount tg guid w
  = Some (match snd r with
          | Some apiErr => (zeroCount, Some apiErr)
          | None => (countInstances tg (fst r), None)
          end, afterGetInstances guid d rest w).
Proof.
  intros H.
  unfold fetchInstanceCount, appInstancesRepo_GetInstances, popInstances,
    bind, emit, advance, ret.
  cbn [instanceAnswers]. rewrite H. cbn [fst snd].
  now destruct (snd r).
Qed.

Lemma fetchInstanceCount_silent tg guid w :
  instanceAnswers w = [] -> fetchInstanceCount tg guid w = None.
Proof.
  intros H.
  unfold fetchInstanceCount, appInstancesRepo_GetInstances, popInstances,
    bind, emit.
  cbn [instanceAnswers]. now rewrite H.
Qed.

(** ** LogTailer *)

Module TailerFacts.
Import Tailer TailerRuns.

(** A loop that has returned reacts to nothing but the connect callback. *)
Lemma returned_deaf st hs :
  returned st = true -> noConnect hs -> run st hs = st.
Proof.
  intros Hret Hnc. revert st Hret.
  induction Hnc as [|h hs Hh _ IH]; intros st Hret; [reflexivity|].
  cbn [run fold_left]. fold (run (step st h) hs).
  assert (step st h = st) as ->.
  { destruct h; cbn in Hh; try discriminate; cbn [step]; now rewrite Hret. }
  now apply IH.
Qed.




End TailerFacts.

Section TailerClaims.
Import Tailer TailerRuns TailerFacts.




(** A connect callback after the error that released the caller issues the
  ready signal a second time. *)
Lemma TailStagingLogs_error_then_connect :
startDone (TailStagingLogs [StreamError "refused"; OnConnect]) = 2%nat.
Proof. reflexivity. Qed.

(** On every return of the loop the deferred [doneWait.Done()] runs, and
  it runs once. *)
Lemma TailStagingLogs_done_once hs :
doneDone (TailStagingLogs hs)
= if returned (TailStagingLogs hs) then 1%nat else 0%nat.
Proof.
unfold TailStagingLogs.
assert (forall st,
  doneDone st = (if returned st then 1%nat else 0%nat) ->
  doneDone (fold_left step hs st)
  = if returned (fold_left step hs st) then 1%nat else 0%nat) as H.
{ induction hs as [|h hs IH]; intros st Hst; [exact Hst|].
  cbn [fold_left]. apply IH.
  destruct h; cbn [step]; unfold onConnect, selectCase, leave;
    destruct (returned st) eqn:Hr; cbn; rewrite ?Hr;
    repeat match goal with
           | |- context [if ?b then _ else _] => destruct b; cbn; rewrite ?Hr
           end; try congruence; try lia. }
apply H. reflexivity.
Qed.

(** A connected tailer that is sent no stop signal and sees neither an
  error nor the end of the stream is still running. *)
Lemma TailStagingLogs_runs_until_stopped hs :
Forall (fun h => match h with
                 | Message _ | TimerFired | ErrorsClosed => True
                 | _ => False
                 end) hs ->
returned (TailStagingLogs (OnConnect :: hs)) = false.
Proof.
unfold TailStagingLogs. cbn [fold_left].
change (step initial OnConnect)
  with (mkState ConnectionWasEstablished 1 0 0 false []).
generalize (@nil Event). intros out Hhs. revert out.
induction Hhs as [|h hs Hh _ IH]; intros out; [reflexivity|].
cbn [fold_left].
destruct h; try contradiction; cbn [step returned selectCase status_eqb
  connectionStatus startDone doneDone closeCalls output];
  try destruct (_ =? _)%string; apply IH.
Qed.

End TailerClaims.

(** ** InstanceCounter *)

Section CounterFacts.
Variable tg : InstanceTags.

Lemma incr_small x : 0 <= x < 2 ^ 63 - 1 -> incr x = x + 1.
Proof.
  intros Hx. unfold incr, int_wrap.
  rewrite Z.mod_small; lia.
Qed.

Lemma tagged_cons tag i l :
  tagged tag (i :: l)
  = (if Instance.State i =? tag then 1 else 0) + tagged tag l.
Proof.
  unfold tagged. cbn [List.filter].
  destruct (Instance.State i =? tag); cbn [length]; lia.
Qed.

Hypothesis Hdistinct : tags_distinct tg.

Lemma tags_apart :
  InstanceRunning tg <> InstanceStarting tg
  /\ InstanceRunning tg <> InstanceFlapping tg
  /\ InstanceRunning tg <> InstanceDown tg
  /\ InstanceRunning tg <> InstanceCrashed tg
  /\ InstanceStarting tg <> InstanceFlapping tg
  /\ InstanceStarting tg <> InstanceDown tg
  /\ InstanceStarting tg <> InstanceCrashed tg
  /\ InstanceFlapping tg <> InstanceDown tg
  /\ InstanceFlapping tg <> InstanceCrashed tg
  /\ InstanceDown tg <> InstanceCrashed tg.
Proof.
  unfold tags_distinct, tag_list in Hdistinct.
  repeat match goal with
         | H : NoDup (_ :: _) |- _ => apply NoDup_cons in H; destruct H
         end.
  repeat split; intros E; rewrite ?E in *; set_solver.
Qed.

Lemma countInstance_fields c i n :
  fits c (S n) ->
  let c' := countInstance tg c i in
  fits c' n
  /\ running c' = running c + tagged (InstanceRunning tg) [i]
  /\ starting c' = starting c + tagged (InstanceStarting tg) [i]
  /\ flapping c' = flapping c + tagged (InstanceFlapping tg) [i]
  /\ down c' = down c + tagged (InstanceDown tg) [i]
  /\ crashed c' = crashed c + tagged (InstanceCrashed tg) [i]
  /\ total c' = total c.
Proof.
  intros Hf. destruct tags_apart as (?&?&?&?&?&?&?&?&?&?).
  unfold fits in *. unfold countInstance, tagged. cbn [List.filter].
  repeat match goal with
         | |- context [(?a =? ?b)%string] =>
             destruct (String.eqb_spec a b); subst
         end;
    try congruence; cbn [running starting flapping down crashed total length];
    rewrite ?incr_small by lia; lia.
Qed.

Lemma countInstance_fold l : forall c,
  fits c (length l) ->
  let c' := fold_left (countInstance tg) l c in
  running c' = running c + tagged (InstanceRunning tg) l
  /\ starting c' = starting c + tagged (InstanceStarting tg) l
  /\ flapping c' = flapping c + tagged (InstanceFlapping tg) l
  /\ down c' = down c + tagged (InstanceDown tg) l
  /\ crashed c' = crashed c + tagged (InstanceCrashed tg) l
  /\ total c' = total c.
Proof.
  induction l as [|i l IH]; intros c Hf; cbn [fold_left].
  - unfold tagged; cbn. lia.
  - destruct (countInstance_fields c i (length l) Hf)
      as (Hf' & Hr & Hs & Hfl & Hd & Hc & Ht).
    specialize (IH _ Hf'). cbn zeta in IH.
    destruct IH as (Hr' & Hs' & Hfl' & Hd' & Hc' & Ht').
    rewrite Hr', Hs', Hfl', Hd', Hc', Ht', Hr, Hs, Hfl, Hd, Hc, Ht.
    rewrite !tagged_cons. unfold tagged.
    cbn [List.filter length]. lia.
Qed.

(** Every instance carries exactly one of the five tags or none. *)
Lemma tags_partition l :
  tagged (InstanceRunning tg) l + tagged (InstanceStarting tg) l
  + tagged (InstanceFlapping tg) l + tagged (InstanceDown tg) l
  + tagged (InstanceCrashed tg) l + unrecognized tg l
  = Z.of_nat (length l).
Proof.
  destruct tags_apart as (?&?&?&?&?&?&?&?&?&?).
  induction l as [|i l IH]; [reflexivity|].
  rewrite !tagged_cons. unfold unrecognized in *. cbn [List.filter].
  unfold tag_list at 1. cbn [existsb].
  repeat match goal with
         | |- context [(?a =? ?b)%string] =>
             destruct (String.eqb_spec a b); subst
         end; try congruence; cbn [negb orb length]; lia.
Qed.

End CounterFacts.

(** C9.  For every instance list the repository hands over (a Go slice,
    so its length is an [int]), [fetchInstanceCount] returns a snapshot
    whose [total] is the length of the list and whose five per-state
    counts are the numbers of instances carrying the respective tag;
    instances with any other tag are in [total] and in no per-state
    count: the five counts and the number of unrecognized instances add
    up to [total]. *)
Theorem fetchInstanceCount_counts
    (tg : InstanceTags) (guid : string) (w : World)
    (d : N) (instances : list Instance.t)
    (rest : list (Answer (list Instance.t))) :
  tags_distinct tg ->
  Z.of_nat (length instances) < 2 ^ 63 ->
  instanceAnswers w = (d, (instances, None)) :: rest ->
  exists count w',
    fetchInstanceCount tg guid w = Some ((count, None), w')
    /\ total count = Z.of_nat (length instances)
    /\ running count = tagged (InstanceRunning tg) instances
    /\ starting count = tagged (InstanceStarting tg) instances
    /\ flapping count = tagged (InstanceFlapping tg) instances
    /\ down count = tagged (InstanceDown tg) instances
    /\ crashed count = tagged (InstanceCrashed tg) instances
    /\ running count + starting count + flapping count + down count
       + crashed count + unrecognized tg instances = total count.
Proof.
  intros Hd Hlen Hw.
  rewrite (fetchInstanceCount_run tg guid w _ _ _ Hw). cbn [fst snd].
  eexists _, _. split; [reflexivity|].
  unfold countInstances.
  destruct (countInstance_fold tg Hd instances
              (mkCount 0 0 ∅ 0 0 0 (Z.of_nat (length instances))))
    as (Hr & Hs & Hf & Hdn & Hc & Ht).
  { unfold fits; cbn. lia. }
  cbn [running starting flapping down crashed total] in *.
  rewrite Hr, Hs, Hf, Hdn, Hc, Ht.
  pose proof (tags_partition tg Hd instances).
  repeat split; lia.
Qed.


Lemma fetchInstanceCount_counts_witness :
  exists count w',
    fetchInstanceCount Sample.tags "app-guid" oneFetchMixed
    = Some ((count, None), w')
    /\ total count = 4
    /\ running count = 1
    /\ starting count = 1
    /\ flapping count = 0
    /\ down count = 0
    /\ crashed count = 1
    /\ running count + starting count + flapping count + down count
       + crashed count + 1 = total count.
Proof.
  apply (fetchInstanceCount_counts Sample.tags "app-guid" oneFetchMixed
           1000000000 mixedInstances []).
  - apply (bool_decide_unpack _). vm_compute. exact I.
  - vm_compute. reflexivity.
  - reflexivity.
Defined.

(** ** StagePoller *)

Section StageFacts.
Variable tx : Texts.
Variable cmd : Start.

Lemma stagingLoop_unfold fuel start app w :
  stagingLoop cmd fuel start app w
  = if keepPolling cmd start app w then
      match fuel with
      | O => None
      | S fuel' =>
          match appRepo_GetApp (GUID app) w with
          | Some ((a, Some err), w') => Some ((a, Some err), w')
          | Some ((a, None), w') =>
              stagingLoop cmd fuel' start a (afterSleep (PingerThrottle cmd) w')
          | None => None
          end
      end
    else Some ((app, None), w).
Proof.
  destruct fuel; cbn [stagingLoop]; unfold bind, time_Since, keepPolling;
    destruct (_ && _); try reflexivity.
  destruct (appRepo_GetApp (GUID app) w) as [[[a [e|]] w']|]; reflexivity.
Qed.

(** When the loop is left without an error its condition is false. *)
Lemma stagingLoop_exit fuel start : forall app w app1 w1,
  stagingLoop cmd fuel start app w = Some ((app1, None), w1) ->
  keepPolling cmd start app1 w1 = false.
Proof.
  induction fuel as [|fuel IH]; intros app w app1 w1;
    rewrite stagingLoop_unfold;
    destruct (keepPolling cmd start app w) eqn:Hk; try discriminate;
    try (intros [= <- <-]; exact Hk).
  destruct (appRepo_GetApp (GUID app) w) as [[[a [e|]] w']|];
    try discriminate.
  apply IH.
Qed.

(** The clock never runs backwards while polling. *)
Lemma stagingLoop_clock fuel start : forall app w r w1,
  stagingLoop cmd fuel start app w = Some (r, w1) -> now w <= now w1.
Proof.
  induction fuel as [|fuel IH]; intros app w r w1;
    rewrite stagingLoop_unfold;
    destruct (keepPolling cmd start app w); try discriminate;
    try (intros [= <- <-]; lia).
  destruct (appAnswers w) as [|[d [a e]] rest] eqn:Hw.
  - now rewrite appRepo_GetApp_silent.
  - rewrite (appRepo_GetApp_run _ _ _ _ _ Hw).
    destruct e; [intros [= <- <-]; cbn; lia|].
    intros H%IH. cbn in H. lia.
Qed.

(** More fuel than scripted answers is as good as any more fuel. *)
Lemma stagingLoop_fuel start : forall fuel1 fuel2 app w,
  (length (appAnswers w) < fuel1)%nat ->
  (length (appAnswers w) < fuel2)%nat ->
  stagingLoop cmd fuel1 start app w = stagingLoop cmd fuel2 start app w.
Proof.
  induction fuel1 as [|fuel1 IH]; intros fuel2 app w H1 H2; [lia|].
  destruct fuel2 as [|fuel2]; [lia|].
  rewrite !(stagingLoop_unfold (S _)).
  destruct (keepPolling cmd start app w); [|reflexivity].
  destruct (appAnswers w) as [|[d [a e]] rest] eqn:Hw.
  - now rewrite appRepo_GetApp_silent.
  - rewrite (appRepo_GetApp_run _ _ _ _ _ Hw).
    destruct e; [reflexivity|].
    apply IH; cbn in *; lia.
Qed.

(** With a positive poll interval and answers enough to last until the
    deadline, the loop returns. *)
Lemma stagingLoop_returns start : forall fuel app w,
  0 < PingerThrottle cmd ->
  (length (appAnswers w) < fuel)%nat ->
  StagingTimeout cmd - (now w - start)
    <= Z.of_nat (length (appAnswers w)) * PingerThrottle cmd ->
  exists r w1, stagingLoop cmd fuel start app w = Some (r, w1).
Proof.
  induction fuel as [|fuel IH]; intros app w Hp Hf Hlen; [lia|].
  rewrite stagingLoop_unfold.
  destruct (keepPolling cmd start app w) eqn:Hk; [|eauto].
  destruct (appAnswers w) as [|[d [a e]] rest] eqn:Hw.
  - unfold keepPolling in Hk. cbn in Hlen.
    apply andb_prop in Hk as [_ Hk]. apply Z.ltb_lt in Hk. lia.
  - rewrite (appRepo_GetApp_run _ _ _ _ _ Hw).
    destruct e; [eauto|].
    apply IH; [assumption|cbn in *; lia|].
    cbn [afterSleep afterGetApp now appAnswers length] in *. lia.
Qed.

Lemma waitForInstancesToStage_unfold app w :
  waitForInstancesToStage tx cmd app w
  = match stagingFetch cmd (now w) app w with
    | Some (r, w1) => stagingVerdict tx cmd (now w) r w1
    | None => None
    end.
Proof.
  unfold waitForInstancesToStage, bind, time_Now.
  destruct (stagingFetch cmd (now w) app w) as [[r w1]|]; reflexivity.
Qed.

Lemma stagingVerdict_run start a w1 :
  stagingVerdict tx cmd start (a, None) w1
  = if PackageState a =? "FAILED"
    then Some ((false, Some (stagingFailure tx a)),
               afterEmit (EvSay EmptyString) w1)
    else Some ((negb (now w1 - start >=? StagingTimeout cmd)%Z, None), w1).
Proof.
  unfold stagingVerdict, stagingFailure, bind, ui_Say, time_Since.
  cbn [fst snd]. destruct (PackageState a =? "FAILED").
  - rewrite emit_run. now destruct (StagingFailedReason a =? _).
  - now destruct (_ >=? _).
Qed.

(** While every answer is a successful fetch of a staging still under
    way, so is what the loop is left with. *)
Lemma stagingLoop_still_staging start : forall fuel app w r w1,
  stillStaging app ->
  Forall stagingAnswer (appAnswers w) ->
  stagingLoop cmd fuel start app w = Some (r, w1) ->
  snd r = None /\ stillStaging (fst r).
Proof.
  induction fuel as [|fuel IH]; intros app w r w1 Happ Hall;
    rewrite stagingLoop_unfold;
    destruct (keepPolling cmd start app w); try discriminate;
    try (intros [= <- <-]; now split).
  destruct (appAnswers w) as [|[d [a e]] rest] eqn:Hw.
  - now rewrite appRepo_GetApp_silent.
  - rewrite (appRepo_GetApp_run _ _ _ _ _ Hw).
    apply Forall_cons in Hall as [[He Ha] Hrest]. cbn [fst snd] in He, Ha.
    subst e. apply IH; [exact Ha|exact Hrest].
Qed.

(** A staging that stays under way for the whole deadline window: with a
    positive poll interval and successful fetches enough to last until the
    deadline, the poller returns the timeout [(false, nil)]. *)
Lemma waitForInstancesToStage_never_staged app w :
  0 < PingerThrottle cmd ->
  StagingTimeout cmd <> 0 ->
  stillStaging app ->
  Forall stagingAnswer (appAnswers w) ->
  StagingTimeout cmd
    <= Z.of_nat (length (appAnswers w)) * PingerThrottle cmd ->
  exists w1, waitForInstancesToStage tx cmd app w = Some ((false, None), w1).
Proof.
  intros Hthr Hnz Happ Hall Hlen.
  destruct (stagingLoop_returns (now w) (S (length (appAnswers w))) app w)
    as ([app1 e] & w1 & Hloop); [assumption|lia|lia|].
  destruct (stagingLoop_still_staging _ _ _ _ _ _ Happ Hall Hloop)
    as [He [Hs Hf]]. cbn [fst snd] in He, Hs, Hf. subst e.
  exists w1. rewrite waitForInstancesToStage_unfold. unfold stagingFetch.
  destruct (Z.eqb_spec (StagingTimeout cmd) 0); [contradiction|].
  rewrite Hloop, stagingVerdict_run.
  pose proof (stagingLoop_exit _ _ _ _ _ _ Hloop) as Hexit.
  unfold keepPolling in Hexit.
  apply String.eqb_neq in Hs, Hf. rewrite Hs, Hf in Hexit.
  cbn [negb andb] in Hexit. apply Z.ltb_ge, Z.geb_le in Hexit.
  now rewrite Hf, Hexit.
Qed.

End StageFacts.

(** C2, as the code has it.  With [StagingTimeout] zero,
    [waitForInstancesToStage] asks [GetApp] exactly once and neither
    loops nor sleeps: the world it leaves is the world after that one
    call.  A failed fetch is returned as it is; after a successful fetch
    the package state [FAILED] gives the staging-failure error and every
    other package state gives [(false, nil)], because no elapsed time is
    below a zero deadline. *)
Theorem waitForInstancesToStage_zero_timeout
    (tx : Texts) (cmd : Start) (app : Application) (w : World)
    (d : N) (a : Application) (err : option error)
    (rest : list (Answer Application)) :
  StagingTimeout cmd = 0 ->
  appAnswers w = (d, (a, err)) :: rest ->
  waitForInstancesToStage tx cmd app w
  = match err with
    | Some e => Some ((false, Some e), afterGetApp (GUID app) d rest w)
    | None =>
        if PackageState a =? "FAILED"
        then Some ((false, Some (stagingFailure tx a)),
                   afterEmit (EvSay EmptyString)
                     (afterGetApp (GUID app) d rest w))
        else Some ((false, None), afterGetApp (GUID app) d rest w)
    end.
Proof.
  intros H0 Hw. rewrite waitForInstancesToStage_unfold.
  unfold stagingFetch. rewrite H0. cbn [Z.eqb].
  rewrite (appRepo_GetApp_run _ _ _ _ _ Hw).
  destruct err as [e|]; [reflexivity|].
  rewrite stagingVerdict_run, H0.
  destruct (PackageState a =? "FAILED"); [reflexivity|].
  assert ((now (afterGetApp (GUID app) d rest w) - now w >=? 0)%Z = true) as ->.
  { cbn [afterGetApp now]. apply Z.geb_le. lia. }
  reflexivity.
Qed.

(** [CF_STAGING_TIMEOUT=0] and an application that is still staging. *)
Lemma waitForInstancesToStage_zero_timeout_witness :
  waitForInstancesToStage Sample.texts Sample.noStagingWait Sample.stopped
    oneFetchPending
  = Some ((false, None),
          afterGetApp "app-guid" 1000000000 [] oneFetchPending).
Proof.
  exact (waitForInstancesToStage_zero_timeout Sample.texts
           Sample.noStagingWait Sample.stopped oneFetchPending 1000000000
           Sample.pending None [] eq_refl eq_refl).
Defined.

(** C2 as stated fails: with a zero deadline and a fetched package state
    [STAGED] the result is not [staged = true]. *)
Lemma waitForInstancesToStage_zero_timeout_staged :
  (PackageState Sample.staged =? "STAGED") = true
  /\ waitForInstancesToStage Sample.texts Sample.noStagingWait Sample.stopped
       oneFetchStaged
     = Some ((false, None),
             afterGetApp "app-guid" 1000000000 [] oneFetchStaged)
  /\ waitForInstancesToStage Sample.texts Sample.noStagingWait Sample.stopped
       oneFetchStaged
     <> Some ((true, None),
              afterGetApp "app-guid" 1000000000 [] oneFetchStaged).
Proof. split; [reflexivity|]. split; [reflexivity|discriminate]. Qed.

(** C4, as the code has it.  With a non-zero [StagingTimeout], let the
    polling loop be left without error, on the application record [app1]
    and in the world [w1].  If the package state is still pending the
    deadline has elapsed and the result is [(false, nil)].  If it is
    [STAGED] the result is [(true, nil)] when the time elapsed at the final
    deadline check is still below [StagingTimeout], and [(false, nil)]
    when it is not. *)
Theorem waitForInstancesToStage_after_polling
    (tx : Texts) (cmd : Start) (app : Application) (w : World)
    (app1 : Application) (w1 : World) :
  StagingTimeout cmd <> 0 ->
  stagingLoop cmd (S (length (appAnswers w))) (now w) app w
  = Some ((app1, None), w1) ->
  (PackageState app1 <> "STAGED" -> PackageState app1 <> "FAILED" ->
     StagingTimeout cmd <= now w1 - now w
     /\ waitForInstancesToStage tx cmd app w = Some ((false, None), w1))
  /\ (PackageState app1 = "STAGED" ->
      now w1 - now w < StagingTimeout cmd ->
      waitForInstancesToStage tx cmd app w = Some ((true, None), w1))
  /\ (PackageState app1 = "STAGED" ->
      StagingTimeout cmd <= now w1 - now w ->
      waitForInstancesToStage tx cmd app w = Some ((false, None), w1)).
Proof.
  intros Hnz Hloop.
  assert (waitForInstancesToStage tx cmd app w
          = stagingVerdict tx cmd (now w) (app1, None) w1) as Hrun.
  { rewrite waitForInstancesToStage_unfold. unfold stagingFetch.
    destruct (Z.eqb_spec (StagingTimeout cmd) 0); [contradiction|].
    now rewrite Hloop. }
  rewrite Hrun, stagingVerdict_run.
  pose proof (stagingLoop_exit cmd _ _ _ _ _ _ Hloop) as Hexit.
  unfold keepPolling in Hexit.
  split; [|split].
  - intros Hs Hf.
    apply String.eqb_neq in Hs, Hf. rewrite Hs, Hf in Hexit.
    cbn [negb andb] in Hexit. apply Z.ltb_ge in Hexit.
    split; [exact Hexit|].
    rewrite Hf. apply Z.geb_le in Hexit. now rewrite Hexit.
  - intros Hs Hlt. rewrite Hs. cbn [String.eqb Ascii.eqb Bool.eqb].
    destruct (Z.geb_spec (now w1 - now w) (StagingTimeout cmd)); [lia|].
    reflexivity.
  - intros Hs Hge. rewrite Hs. cbn [String.eqb Ascii.eqb Bool.eqb].
    apply Z.geb_le in Hge. now rewrite Hge.
Qed.

(** The three cases at one minute to stage: staged at the second poll,
    never staged, and staged at the last poll before the deadline. *)
Lemma waitForInstancesToStage_after_polling_witness :
  (exists w1,
     waitForInstancesToStage Sample.texts Sample.oneMinute Sample.stopped
       quickStaging = Some ((true, None), w1))
  /\ (exists w1,
        waitForInstancesToStage Sample.texts Sample.oneMinute Sample.stopped
          stuckStaging = Some ((false, None), w1))
  /\ (exists w1,
        waitForInstancesToStage Sample.texts Sample.oneMinute Sample.stopped
          lateStaging = Some ((false, None), w1)).
Proof.
  split; [|split]; eexists.
  - edestruct (waitForInstancesToStage_after_polling Sample.texts
                 Sample.oneMinute Sample.stopped quickStaging Sample.staged)
      as (_ & Hstaged & _);
      [discriminate | vm_compute; reflexivity |].
    apply Hstaged; [reflexivity | vm_compute; reflexivity].
  - edestruct (waitForInstancesToStage_after_polling Sample.texts
                 Sample.oneMinute Sample.stopped stuckStaging Sample.pending)
      as (Hpending & _ & _);
      [discriminate | vm_compute; reflexivity |].
    apply Hpending; discriminate.
  - edestruct (waitForInstancesToStage_after_polling Sample.texts
                 Sample.oneMinute Sample.stopped lateStaging Sample.staged)
      as (_ & _ & Hlate);
      [discriminate | vm_compute; reflexivity |].
    apply Hlate; [reflexivity | vm_compute; discriminate].
Defined.

(** C4 as stated fails: the polling loop is left with the package state
    [STAGED], fetched 55 s into a deadline of 60 s, and the result is the
    timeout [(false, nil)], not [(true, nil)]. *)
Lemma waitForInstancesToStage_staged_late :
  exists w1,
    stagingLoop Sample.oneMinute (S (length (appAnswers lateStaging)))
      (now lateStaging) Sample.stopped lateStaging
    = Some ((Sample.staged, None), w1)
    /\ PackageState Sample.staged = "STAGED"
    /\ waitForInstancesToStage Sample.texts Sample.oneMinute Sample.stopped
         lateStaging = Some ((false, None), w1)
    /\ waitForInstancesToStage Sample.texts Sample.oneMinute Sample.stopped
         lateStaging <> Some ((true, None), w1).
Proof.
  eexists. split; [vm_compute; reflexivity|].
  split; [reflexivity|]. split; [vm_compute; reflexivity|].
  vm_compute. discriminate.
Qed.





(** ** InstancePoller *)

Section InstanceFacts.
Variable tx : Texts.
Variable tg : InstanceTags.
Variable cmd : Start.

Lemma instanceLoop_unfold fuel start app w :
  instanceLoop tx tg cmd fuel start app w
  = if (now w - start >=? StartupTimeout cmd)%Z then
      Some (Some (startTimeoutMessage tx app), w)
    else
      match fuel with
      | O => None
      | S fuel' =>
          match instanceAnswers w with
          | [] => None
          | (d, (instances, Some err)) :: rest =>
              instanceLoop tx tg cmd fuel' start app
                (afterSleep (PingerThrottle cmd)
                   (afterEmit (EvWarn ("Could not fetch instance count: " ++ err))
                      (afterGetInstances (GUID app) d rest w)))
          | (d, (instances, None)) :: rest =>
              let count := countInstances tg instances in
              let w1 := afterEmit (EvSay (instancesDetails tx count))
                          (afterGetInstances (GUID app) d rest w) in
              if (running count >? 0)%Z then Some (None, w1)
              else if (flapping count >? 0)%Z || (crashed count >? 0)%Z
              then Some (Some (startUnsuccessfulMessage tx app), w1)
              else instanceLoop tx tg cmd fuel' start app
                     (afterSleep (PingerThrottle cmd) w1)
          end
      end.
Proof.
  destruct fuel; cbn [instanceLoop]; unfold bind at 1, time_Since;
    destruct (_ >=? _)%Z; try reflexivity.
  unfold bind at 1.
  destruct (instanceAnswers w) as [|[d [instances e]] rest] eqn:Hw.
  - now rewrite fetchInstanceCount_silent.
  - rewrite (fetchInstanceCount_run tg _ _ _ _ _ Hw). cbn [fst snd].
    destruct e as [err|]; cbn [fst snd].
    + reflexivity.
    + unfold bind, ui_Say. rewrite emit_run. cbn zeta.
      destruct (running _ >? 0)%Z; [reflexivity|].
      destruct (_ || _); reflexivity.
Qed.

Lemma waitForOneRunningInstance_unfold app w :
  waitForOneRunningInstance tx tg cmd app w
  = instanceLoop tx tg cmd (S (length (instanceAnswers w))) (now w) app w.
Proof. reflexivity. Qed.

Lemma pollTime_cons a l :
  pollTime cmd (a :: l)
  = Z.of_N (fst a) + Z.max 0 (PingerThrottle cmd) + pollTime cmd l.
Proof. reflexivity. Qed.

Lemma pollTime_nil : pollTime cmd [] = 0.
Proof. reflexivity. Qed.

Lemma afterPolls_nil guid rest w :
  instanceAnswers w = rest -> afterPolls tx tg cmd guid [] rest w = w.
Proof.
  intros <-. destruct w. unfold afterPolls. cbn.
  f_equal; [lia|apply app_nil_r].
Qed.

Lemma afterPolls_cons guid a pre rest w :
  afterPolls tx tg cmd guid (a :: pre) rest w
  = afterPolls tx tg cmd guid pre rest
      (afterPolls tx tg cmd guid [a] (pre ++ rest)%list w).
Proof.
  unfold afterPolls. cbn [now appAnswers updateAnswers showAnswers trace
    flat_map].
  rewrite !pollTime_cons, pollTime_nil.
  f_equal; [lia|]. now rewrite app_nil_r, app_assoc.
Qed.

Lemma pollTime_nonneg answers : 0 <= pollTime cmd answers.
Proof.
  induction answers as [|a l IH];
    [rewrite pollTime_nil | rewrite pollTime_cons]; lia.
Qed.

(** One poll that settles nothing: the poller sleeps and takes another
    turn of the loop. *)
Lemma instanceLoop_poll_again fuel start app w a rest :
  instanceAnswers w = a :: rest ->
  inconclusive tg a ->
  now w - start < StartupTimeout cmd ->
  instanceLoop tx tg cmd (S fuel) start app w
  = instanceLoop tx tg cmd fuel start app
      (afterPolls tx tg cmd (GUID app) [a] rest w).
Proof.
  intros Hw Ha Ht. rewrite instanceLoop_unfold, Hw.
  destruct (Z.geb_spec (now w - start) (StartupTimeout cmd)); [lia|].
  destruct a as [d [instances [err|]]]; unfold inconclusive in Ha;
    cbn [fst snd] in Ha.
  - f_equal. unfold afterPolls, afterSleep, afterEmit, afterGetInstances.
    cbn. f_equal; [lia|]. now rewrite <- !app_assoc.
  - cbn zeta in *. destruct Ha as (Hr & Hf & Hc).
    destruct (Z.gtb_spec (running (countInstances tg instances)) 0); [lia|].
    destruct (Z.gtb_spec (flapping (countInstances tg instances)) 0); [lia|].
    destruct (Z.gtb_spec (crashed (countInstances tg instances)) 0); [lia|].
    cbn [orb]. f_equal.
    unfold afterPolls, afterSleep, afterEmit, afterGetInstances.
    cbn. f_equal; [lia|]. now rewrite <- !app_assoc.
Qed.

(** Any number of polls that settle nothing. *)
Lemma instanceLoop_polls start app (pre : list (Answer (list Instance.t))) :
  forall fuel w rest,
  instanceAnswers w = (pre ++ rest)%list ->
  Forall (inconclusive tg) pre ->
  (pre = [] \/ now w - start + pollTime cmd (removelast pre)
               < StartupTimeout cmd) ->
  instanceLoop tx tg cmd (length pre + fuel) start app w
  = instanceLoop tx tg cmd fuel start app
      (afterPolls tx tg cmd (GUID app) pre rest w).
Proof.
  induction pre as [|a pre IH]; intros fuel w rest Hw Hpre Ht.
  - now rewrite afterPolls_nil.
  - destruct Ht as [|Ht]; [discriminate|].
    apply Forall_cons in Hpre as [Ha Hpre].
    cbn [length Nat.add].
    rewrite (instanceLoop_poll_again _ _ _ _ a (pre ++ rest)%list Hw Ha).
    2:{ pose proof (pollTime_nonneg (removelast (a :: pre))). lia. }
    rewrite (afterPolls_cons (GUID app) a pre rest w). apply IH; [reflexivity|assumption|].
    destruct pre as [|b pre]; [now left|right].
    change (removelast (a :: b :: pre))
      with (a :: removelast (b :: pre)) in Ht.
    rewrite pollTime_cons in Ht.
    cbn [afterPolls now]. rewrite pollTime_cons, pollTime_nil.
    lia.
Qed.

End InstanceFacts.

Lemma pollTime_removelast cmd answers :
  pollTime cmd (removelast answers) <= pollTime cmd answers.
Proof.
  induction answers as [|a l IH]; [reflexivity|].
  destruct l as [|b l].
  - cbn [removelast]. rewrite pollTime_cons, !pollTime_nil. lia.
  - change (removelast (a :: b :: l)) with (a :: removelast (b :: l)).
    rewrite !(pollTime_cons cmd a). lia.
Qed.

Lemma failedFetch_inconclusive tg a : failedFetch a -> inconclusive tg a.
Proof.
  unfold failedFetch, inconclusive. destruct (snd (snd a)); [trivial|congruence].
Qed.

(** Polls that settle nothing, from the start of the poller: as long as
    they end before the startup deadline the loop is at its next turn. *)
Lemma waitForOneRunningInstance_polls tx tg cmd app w
    (pre rest : list (Answer (list Instance.t))) :
  instanceAnswers w = (pre ++ rest)%list ->
  Forall (inconclusive tg) pre ->
  (pre = [] \/ pollTime cmd (removelast pre) < StartupTimeout cmd) ->
  waitForOneRunningInstance tx tg cmd app w
  = instanceLoop tx tg cmd (S (length rest)) (now w) app
      (afterPolls tx tg cmd (GUID app) pre rest w).
Proof.
  intros Hw Hpre Ht. rewrite waitForOneRunningInstance_unfold.
  replace (S (length (instanceAnswers w)))
    with (length pre + S (length rest))%nat
    by (rewrite Hw, length_app; lia).
  apply instanceLoop_polls; [assumption..|].
  destruct Ht as [Ht|Ht]; [now left|right]. lia.
Qed.

(** C6.  Let the instance poller reach a snapshot, after any polls that
    settled nothing and ended before the startup deadline.  If the
    snapshot has a running count of at least one, the poller returns nil
    there, whatever the other counts; if its running count is zero and
    its flapping or crashed count is above zero, the poller returns a
    non-nil error there.  In both cases the answers after the snapshot
    are left untouched: there is no further fetch. *)
Theorem waitForOneRunningInstance_verdict
    (tx : Texts) (tg : InstanceTags) (cmd : Start) (app : Application)
    (w : World) (pre : list (Answer (list Instance.t)))
    (d : N) (instances : list Instance.t)
    (rest : list (Answer (list Instance.t))) :
  instanceAnswers w = (pre ++ (d, (instances, None)) :: rest)%list ->
  Forall (inconclusive tg) pre ->
  pollTime cmd pre < StartupTimeout cmd ->
  let count := countInstances tg instances in
  let w1 :=
    afterEmit (EvSay (instancesDetails tx count))
      (afterGetInstances (GUID app) d rest
         (afterPolls tx tg cmd (GUID app) pre
            ((d, (instances, None)) :: rest) w)) in
  (1 <= running count ->
     waitForOneRunningInstance tx tg cmd app w = Some (None, w1))
  /\ (running count = 0 -> 0 < flapping count \/ 0 < crashed count ->
      waitForOneRunningInstance tx tg cmd app w
      = Some (Some (startUnsuccessfulMessage tx app), w1))
  /\ instanceAnswers w1 = rest.
Proof.
  intros Hw Hpre Ht count w1.
  pose proof (pollTime_removelast cmd pre) as Hrl.
  rewrite (waitForOneRunningInstance_polls tx tg cmd app w pre _ Hw Hpre)
    by (right; lia).
  rewrite instanceLoop_unfold.
  cbn [afterPolls now instanceAnswers].
  destruct (Z.geb_spec (now w + pollTime cmd pre - now w) (StartupTimeout cmd));
    [lia|].
  fold count. cbn zeta.
  change (afterEmit _ (afterGetInstances _ _ _ _)) with w1.
  split; [|split]; [| |reflexivity].
  - intros Hr. destruct (Z.gtb_spec (running count) 0); [reflexivity|lia].
  - intros Hr Hfc. rewrite Hr. cbn [Z.gtb Z.compare].
    destruct (Z.gtb_spec (flapping count) 0);
      destruct (Z.gtb_spec (crashed count) 0); try reflexivity. lia.
Qed.

(** An application that comes up at the third poll, and one that crashes
    at the second. *)
Lemma waitForOneRunningInstance_verdict_witness :
  (exists w1,
     waitForOneRunningInstance Sample.texts Sample.tags Sample.defaults
       Sample.staged slowStart = Some (None, w1)
     /\ instanceAnswers w1 = [Sample.after1s [Sample.inst "crashed"] None])
  /\ (exists w1,
        waitForOneRunningInstance Sample.texts Sample.tags Sample.defaults
          Sample.staged crashingStart
        = Some (Some (startUnsuccessfulMessage Sample.texts Sample.staged), w1)
        /\ instanceAnswers w1 = [Sample.after1s [Sample.inst "running"] None]).
Proof.
  split.
  - edestruct (waitForOneRunningInstance_verdict Sample.texts Sample.tags
                 Sample.defaults Sample.staged slowStart
                 [Sample.after1s [] None;
                  Sample.after1s [Sample.inst "starting"] None]
                 1000000000 [Sample.inst "running"]
                 [Sample.after1s [Sample.inst "crashed"] None])
      as (Hrun & _ & Hrest).
    + reflexivity.
    + repeat constructor; vm_compute; discriminate.
    + vm_compute. reflexivity.
    + eexists. split; [apply Hrun; vm_compute; discriminate|exact Hrest].
  - edestruct (waitForOneRunningInstance_verdict Sample.texts Sample.tags
                 Sample.defaults Sample.staged crashingStart
                 [Sample.after1s [Sample.inst "starting"] None]
                 1000000000 [Sample.inst "crashed"]
                 [Sample.after1s [Sample.inst "running"] None])
      as (_ & Hcrash & Hrest).
    + reflexivity.
    + repeat constructor; vm_compute; discriminate.
    + vm_compute. reflexivity.
    + eexists. split; [apply Hcrash|exact Hrest].
      * reflexivity.
      * right. vm_compute. reflexivity.
Defined.

(** C7.  Let the instance poller reach a failed fetch, after any number
    of failed fetches that ended before the startup deadline.  The poller
    does not return the error: it emits the warning, sleeps one poll
    interval and is at the next turn of its loop, where only the startup
    timer ends the polling.  Nothing bounds the number of failed fetches
    so absorbed but the timer. *)
Theorem waitForOneRunningInstance_fetch_error
    (tx : Texts) (tg : InstanceTags) (cmd : Start) (app : Application)
    (w : World) (errs : list (Answer (list Instance.t)))
    (d : N) (instances : list Instance.t) (err : error)
    (rest : list (Answer (list Instance.t))) :
  instanceAnswers w = (errs ++ (d, (instances, Some err)) :: rest)%list ->
  Forall failedFetch errs ->
  pollTime cmd errs < StartupTimeout cmd ->
  let w0 := afterPolls tx tg cmd (GUID app) errs
              ((d, (instances, Some err)) :: rest) w in
  let w1 := afterSleep (PingerThrottle cmd)
              (afterEmit (EvWarn ("Could not fetch instance count: " ++ err))
                 (afterGetInstances (GUID app) d rest w0)) in
  waitForOneRunningInstance tx tg cmd app w
  = instanceLoop tx tg cmd (S (length rest)) (now w) app w1
  /\ (StartupTimeout cmd <= now w1 - now w ->
      waitForOneRunningInstance tx tg cmd app w
      = Some (Some (startTimeoutMessage tx app), w1)).
Proof.
  intros Hw Herrs Ht w0 w1.
  assert (waitForOneRunningInstance tx tg cmd app w
          = instanceLoop tx tg cmd (S (length rest)) (now w) app w1) as Hrun.
  { pose proof (pollTime_removelast cmd errs) as Hrl.
    rewrite (waitForOneRunningInstance_polls tx tg cmd app w errs _ Hw).
    - rewrite instanceLoop_unfold.
      cbn [afterPolls now instanceAnswers].
      destruct (Z.geb_spec (now w + pollTime cmd errs - now w)
                  (StartupTimeout cmd)); [lia|].
      reflexivity.
    - eapply Forall_impl; [exact Herrs|].
      intros a. apply failedFetch_inconclusive.
    - right. lia. }
  split; [exact Hrun|].
  intros Hfired. rewrite Hrun, instanceLoop_unfold.
  apply Z.geb_le in Hfired. now rewrite Hfired.
Qed.

(** Three failed fetches in a row are warned about and slept over, and
    the running instance of the fourth answer ends the polling. *)
Lemma waitForOneRunningInstance_fetch_error_witness :
  exists w1,
    waitForOneRunningInstance Sample.texts Sample.tags Sample.defaults
      Sample.staged flakyFetch
    = instanceLoop Sample.texts Sample.tags Sample.defaults 2 0
        Sample.staged w1
    /\ trace w1
       = [EvGetInstances "app-guid";
          EvWarn "Could not fetch instance count: 502 Bad Gateway";
          EvSleep 5000000000;
          EvGetInstances "app-guid";
          EvWarn "Could not fetch instance count: 502 Bad Gateway";
          EvSleep 5000000000;
          EvGetInstances "app-guid";
          EvWarn "Could not fetch instance count: connection reset";
          EvSleep 5000000000]
    /\ instanceLoop Sample.texts Sample.tags Sample.defaults 2 0
         Sample.staged w1
       = Some (None,
               afterEmit (EvSay "1 of 1 instances running")
                 (afterGetInstances "app-guid" 1000000000 [] w1)).
Proof.
  eexists. split; [|split].
  - apply (waitForOneRunningInstance_fetch_error Sample.texts Sample.tags
             Sample.defaults Sample.staged flakyFetch
             [Sample.after1s [] (Some "502 Bad Gateway");
              Sample.after1s [] (Some "502 Bad Gateway")]
             1000000000 [] "connection reset"
             [Sample.after1s [Sample.inst "running"] None]).
    + reflexivity.
    + repeat constructor; discriminate.
    + vm_compute. reflexivity.
  - vm_compute. reflexivity.
  - vm_compute. reflexivity.
Defined.

(** ** StartOrchestrator *)

Section OrchestratorFacts.
Variable tx : Texts.
Variable tg : InstanceTags.
Variable cmd : Start.

Lemma WatchStaging_unfold app org space start w :
  WatchStaging tx tg cmd app org space start w
  = match start app (tailing app w) with
    | None => None
    | Some ((_, Some err), w1) => Some ((zeroApplication, Some err), w1)
    | Some ((updatedApp, None), w1) =>
        match waitForInstancesToStage tx cmd updatedApp w1 with
        | None => None
        | Some ((_, Some err), w2) => Some ((zeroApplication, Some err), w2)
        | Some ((false, None), w2) =>
            Some ((zeroApplication,
                   Some (Name app ++ " failed to stage within "
                         ++ fmt_minutes tx (StagingTimeout cmd) ++ " minutes")),
                  drained w2)
        | Some ((true, None), w2) =>
            match waitForOneRunningInstance tx tg cmd updatedApp (drained w2) with
            | None => None
            | Some (Some err, w3) => Some ((zeroApplication, Some err), w3)
            | Some (None, w3) =>
                (ui_Say (HeaderColor tx (nl ++ "App started" ++ nl)) ;;
                 ui_Say EmptyString ;;
                 ui_Ok ;;
                 do g <- appRepo_GetApp (GUID updatedApp) ;
                 match snd g with
                 | Some err => ret (zeroApplication, Some err)
                 | None =>
                     let startedApp := fst g in
                     let appStartCommand :=
                       if Command app =? EmptyString
                       then DetectedStartCommand startedApp
                       else Command startedApp in
                     ui_Say (nl ++ "App " ++ EntityNameColor tx (Name startedApp)
                             ++ " was started using this command `"
                             ++ appStartCommand ++ "`" ++ nl) ;;
                     do e <- appDisplayer_ShowApp startedApp org space ;
                     match e with
                     | Some err => ret (zeroApplication, Some err)
                     | None => ret (updatedApp, None)
                     end
                 end) w3
            end
        end
    end.
Proof.
  unfold WatchStaging. do 2 emit_step. rewrite bind_run.
  fold (tailing app w).
  destruct (start app (tailing app w)) as [[[u [e|]] w1]|];
    cbn [fst snd]; try reflexivity.
  rewrite bind_run.
  destruct (waitForInstancesToStage tx cmd u w1) as [[[b [e|]] w2]|];
    cbn [fst snd]; try reflexivity; try (destruct b; reflexivity).
  do 2 emit_step. unfold ui_Say at 1. emit_step. fold (drained w2).
  destruct b; cbn [negb]; [|reflexivity].
  rewrite bind_run.
  destruct (waitForOneRunningInstance tx tg cmd u (drained w2))
    as [[[e|] w3]|]; reflexivity.
Qed.

End OrchestratorFacts.

(** C8.  For an application whose state is already [started],
    [ApplicationStart] emits the warning and returns at once with a nil
    error.  The world it leaves differs from the one it found by that one
    line on the UI: no tailer was launched, no repository was asked and no
    poller ran. *)
Theorem ApplicationStart_already_started
    (tx : Texts) (tg : InstanceTags) (cmd : Start) (app : Application)
    (orgName spaceName : string) (w : World) :
  State app = "started" ->
  ApplicationStart tx tg cmd app orgName spaceName w
  = Some ((zeroApplication, None),
          afterEmit (EvSay (WarningColor tx
                              ("App " ++ Name app ++ " is already started")))
                    w).
Proof.
  intros Hstarted. unfold ApplicationStart. now rewrite Hstarted.
Qed.

Lemma ApplicationStart_already_started_witness :
  ApplicationStart Sample.texts Sample.tags Sample.defaults
    Sample.alreadyStarted "org" "space" slowStart
  = Some ((zeroApplication, None),
          afterEmit (EvSay "App dora is already started") slowStart).
Proof.
  exact (ApplicationStart_already_started Sample.texts Sample.tags
           Sample.defaults Sample.alreadyStarted "org" "space" slowStart
           eq_refl).
Defined.

(** C10.  When the start operation succeeds and the stage poller reports
    the staging timeout [(false, nil)], [WatchStaging] sends the stop
    signal, waits for the tailer's done signal, and then returns the zero
    [Application] with a non-nil error: the name of the application
    followed by [failed to stage within], the staging timeout in minutes
    and [minutes]. *)
Theorem WatchStaging_staging_timeout
    (tx : Texts) (tg : InstanceTags) (cmd : Start) (app : Application)
    (orgName spaceName : string)
    (start : Application -> M (Application * option error))
    (w : World) (updatedApp : Application) (w1 w2 : World) :
  start app (tailing app w) = Some ((updatedApp, None), w1) ->
  waitForInstancesToStage tx cmd updatedApp w1 = Some ((false, None), w2) ->
  WatchStaging tx tg cmd app orgName spaceName start w
  = Some ((zeroApplication,
           Some (Name app ++ " failed to stage within "
                 ++ fmt_minutes tx (StagingTimeout cmd) ++ " minutes")),
          afterEmit (EvSay EmptyString)
            (afterEmit EvWaitDone (afterEmit EvSendStop w2))).
Proof.
  intros Hstart Hstage.
  now rewrite WatchStaging_unfold, Hstart, Hstage.
Qed.

(** One minute to stage and a staging that never gets done. *)
Lemma WatchStaging_staging_timeout_witness :
  exists w2,
    WatchStaging Sample.texts Sample.tags Sample.oneMinute Sample.stopped
      "org" "space" (startCommand Sample.texts "org" "space") stuckStart
    = Some ((zeroApplication,
             Some "dora failed to stage within 1.000000 minutes"),
            afterEmit (EvSay EmptyString)
              (afterEmit EvWaitDone (afterEmit EvSendStop w2))).
Proof.
  eexists.
  eapply (WatchStaging_staging_timeout Sample.texts Sample.tags
           Sample.oneMinute Sample.stopped "org" "space"
           (startCommand Sample.texts "org" "space") stuckStart
           Sample.pending).
  - vm_compute. reflexivity.
  - vm_compute. reflexivity.
Defined.

(** When the start operation or the stage poller returns an error,
    [WatchStaging] returns in the very world that call left: nothing is
    sent on [stopChan] and the done signal is not waited for. *)
Lemma WatchStaging_error_paths
    (tx : Texts) (tg : InstanceTags) (cmd : Start) (app : Application)
    (orgName spaceName : string)
    (start : Application -> M (Application * option error))
    (w : World) (updatedApp : Application) (w1 : World) :
  (forall err,
     start app (tailing app w) = Some ((updatedApp, Some err), w1) ->
     WatchStaging tx tg cmd app orgName spaceName start w
     = Some ((zeroApplication, Some err), w1))
  /\ (forall err staged w2,
        start app (tailing app w) = Some ((updatedApp, None), w1) ->
        waitForInstancesToStage tx cmd updatedApp w1
        = Some ((staged, Some err), w2) ->
        WatchStaging tx tg cmd app orgName spaceName start w
        = Some ((zeroApplication, Some err), w2)).
Proof.
  split.
  - intros err Hstart. now rewrite WatchStaging_unfold, Hstart.
  - intros err staged w2 Hstart Hstage.
    rewrite WatchStaging_unfold, Hstart, Hstage. now destruct staged.
Qed.

(** C1 does not hold of the code.  When the update that is to start the
    application is refused, [WatchStaging] returns the error after
    launching the tailer and waiting for its ready signal; when the
    staging fails, it returns the error after the status fetch and the
    sleep that ends the poll.  On neither path is the stop signal sent or
    the done signal waited for. *)
Theorem WatchStaging_errors_leave_tailer :
  (exists w1,
     WatchStaging Sample.texts Sample.tags Sample.defaults Sample.stopped
       "org" "space" (startCommand Sample.texts "org" "space") refusedStart
     = Some ((zeroApplication, Some "CF-AppStoppedStatsError"), w1)
     /\ trace w1
        = [EvGoTail Sample.stopped; EvWaitStarted;
           EvSay "Starting app dora in org org / space space as admin...";
           EvUpdate "app-guid" "STARTED"]
     /\ ~ In EvSendStop (trace w1) /\ ~ In EvWaitDone (trace w1))
  /\ (exists err w2,
        WatchStaging Sample.texts Sample.tags Sample.defaults Sample.stopped
          "org" "space" (startCommand Sample.texts "org" "space")
          failedStaging
        = Some ((zeroApplication, Some err), w2)
        /\ trace w2
           = [EvGoTail Sample.stopped; EvWaitStarted;
              EvSay "Starting app dora in org org / space space as admin...";
              EvUpdate "app-guid" "STARTED";
              EvGetApp "app-guid";
              EvSleep 5000000000;
              EvSay EmptyString]
        /\ ~ In EvSendStop (trace w2) /\ ~ In EvWaitDone (trace w2)).
Proof.
  split.
  - eexists. split; [vm_compute; reflexivity|].
    split; [vm_compute; reflexivity|].
    split; vm_compute; intuition discriminate.
  - eexists _, _. split; [vm_compute; reflexivity|].
    split; [vm_compute; reflexivity|].
    split; vm_compute; intuition discriminate.
Qed.

(** * Further properties *)

(** ** LogTailer *)

Section TailerExtras.
Import Tailer TailerRuns TailerFacts TailerWords.

Lemma run_app st hs1 hs2 : run st (hs1 ++ hs2) = run (run st hs1) hs2.
Proof. apply fold_left_app. Qed.

Lemma shown_app hs1 hs2 : shown (hs1 ++ hs2) = (shown hs1 ++ shown hs2)%list.
Proof. apply flat_map_app. Qed.

(** Traffic on an established connection: the staging messages are shown
    and nothing else changes. *)
Lemma established_traffic hs : forall ready done closes out,
  Forall isTraffic hs ->
  run (mkState ConnectionWasEstablished ready done closes false out) hs
  = mkState ConnectionWasEstablished ready done closes false
      (out ++ shown hs).
Proof.
  induction hs as [|h hs IH]; intros ready done closes out Hhs.
  - cbn. now rewrite app_nil_r.
  - apply Forall_cons in Hhs as [Hh Hhs].
    change (h :: hs) with ([h] ++ hs)%list at 2.
    rewrite (shown_app [h] hs), app_assoc, <- IH by assumption.
    destruct h; try contradiction; cbn; try rewrite app_nil_r;
      try reflexivity.
    destruct (_ =? _)%string; cbn; now rewrite ?app_nil_r.
Qed.

(** After the close was asked for, errors are expected too. *)
Lemma closed_traffic hs : forall ready done closes out,
  Forall isTrafficOrError hs ->
  run (mkState ConnectionWasClosed ready done closes false out) hs
  = mkState ConnectionWasClosed ready done closes false (out ++ shown hs).
Proof.
  induction hs as [|h hs IH]; intros ready done closes out Hhs.
  - cbn. now rewrite app_nil_r.
  - apply Forall_cons in Hhs as [Hh Hhs].
    change (h :: hs) with ([h] ++ hs)%list at 2.
    rewrite (shown_app [h] hs), app_assoc, <- IH by assumption.
    destruct h; try contradiction; cbn; try rewrite app_nil_r;
      try reflexivity.
    destruct (_ =? _)%string; cbn; now rewrite ?app_nil_r.
Qed.

(** Before any connection, messages are shown as well. *)
Lemma waiting_quiet hs : forall out,
  Forall isQuiet hs ->
  run (mkState NoConnection 0 0 0 false out) hs
  = mkState NoConnection 0 0 0 false (out ++ shown hs).
Proof.
  induction hs as [|h hs IH]; intros out Hhs.
  - cbn. now rewrite app_nil_r.
  - apply Forall_cons in Hhs as [Hh Hhs].
    change (h :: hs) with ([h] ++ hs)%list at 2.
    rewrite (shown_app [h] hs), app_assoc, <- IH by assumption.
    destruct h; try contradiction; cbn; try rewrite app_nil_r;
      try reflexivity.
    destruct (_ =? _)%string; cbn; now rewrite ?app_nil_r.
Qed.

(** X1.  The orderly shutdown.  A tailer that connects, sees traffic, is
    told to stop and then sees more traffic and any number of stream
    errors is still running; it returns when the message stream is
    closed.  By then it has signalled ready once and done once, has
    closed the log subscription once, and has shown the staging messages
    and nothing else: the errors that follow the requested close raise no
    warning. *)
Theorem TailStagingLogs_orderly_shutdown
    (hs1 hs2 : list Happening) :
  Forall isTraffic hs1 ->
  Forall isTrafficOrError hs2 ->
  returned (TailStagingLogs (OnConnect :: hs1 ++ StopSignal :: hs2)) = false
  /\ TailStagingLogs (OnConnect :: hs1 ++ StopSignal :: hs2 ++ [MessagesClosed])
     = mkState ConnectionWasClosed 1 1 1 true (shown (hs1 ++ hs2)).
Proof.
  intros H1 H2. unfold TailStagingLogs.
  change (fold_left step ?l initial) with (run initial l).
  change (OnConnect :: ?l) with ([OnConnect] ++ l)%list.
  rewrite !run_app.
  change (run initial [OnConnect])
    with (mkState ConnectionWasEstablished 1 0 0 false []).
  rewrite (established_traffic hs1) by assumption.
  change (StopSignal :: ?l) with ([StopSignal] ++ l)%list.
  rewrite !run_app.
  change (run (mkState ConnectionWasEstablished 1 0 0 false ?o) [StopSignal])
    with (mkState ConnectionWasClosed 1 0 1 false o).
  rewrite (closed_traffic hs2) by assumption.
  split; [reflexivity|].
  cbn. now rewrite shown_app.
Qed.

Lemma TailStagingLogs_orderly_shutdown_witness :
  TailStagingLogs
    [OnConnect; Message (mkLoggable "STG" "-----> Downloaded app package");
     TimerFired; Message (mkLoggable "RTR" "GET / 200");
     StopSignal; StreamError "websocket: close 1000";
     MessagesClosed]
  = mkState ConnectionWasClosed 1 1 1 true
      [EvSay "-----> Downloaded app package"].
Proof.
  apply (TailStagingLogs_orderly_shutdown
           [Message (mkLoggable "STG" "-----> Downloaded app package");
            TimerFired; Message (mkLoggable "RTR" "GET / 200")]
           [StreamError "websocket: close 1000"]);
    repeat constructor.
Defined.



(** X3.  A stream error before any connection.  The tailer warns, shows
    the error, signals ready (the caller is not left waiting) and done,
    and returns without closing anything; unless a connect callback
    follows, nothing changes it any more. *)
Theorem TailStagingLogs_error_before_connection
    (hs rest : list Happening) (err : error) :
  Forall isQuiet hs ->
  noConnect rest ->
  TailStagingLogs (hs ++ StreamError err :: rest)
  = mkState NoConnection 1 1 0 true
      (shown hs ++ [EvWarn "Warning: error tailing logs"; EvSay err]).
Proof.
  intros Hhs Hrest. unfold TailStagingLogs.
  change (fold_left step ?l initial) with (run initial l).
  change (StreamError err :: rest) with ([StreamError err] ++ rest)%list.
  rewrite !run_app.
  unfold initial. rewrite (waiting_quiet hs) by assumption.
  cbn [app]. rewrite returned_deaf; [|reflexivity|assumption].
  cbn. unfold leave, signalReady, show.
  cbn [connectionStatus startDone doneDone closeCalls returned output].
  now rewrite <- app_assoc.
Qed.

Lemma TailStagingLogs_error_before_connection_witness :
  TailStagingLogs
    [Message (mkLoggable "APP" "listening"); StreamError "401 Unauthorized";
     TimerFired; StopSignal]
  = mkState NoConnection 1 1 0 true
      [EvWarn "Warning: error tailing logs"; EvSay "401 Unauthorized"].
Proof.
  apply (TailStagingLogs_error_before_connection
           [Message (mkLoggable "APP" "listening")] [TimerFired; StopSignal]
           "401 Unauthorized");
    repeat constructor.
Defined.

Lemma unconnected_step st h :
  unconnected st -> isConnect h = false ->
  unconnected (step st h) /\ closeCalls (step st h) = closeCalls st.
Proof.
  intros Hu Hh. destruct st as [c ready done closes ret out].
  unfold unconnected in *. cbn [connectionStatus] in Hu.
  destruct h; cbn in Hh; try discriminate;
    destruct ret; destruct Hu as [-> | ->]; cbn;
    try destruct (_ =? _)%string; cbn; auto.
Qed.

(** X4.  Without a connect callback the tailer never calls
    [logRepo.Close()]: a subscription that was never established is
    never closed, whatever else happens. *)
Theorem TailStagingLogs_closes_only_connected (hs : list Happening) :
  noConnect hs ->
  closeCalls (TailStagingLogs hs) = 0%nat
  /\ unconnected (TailStagingLogs hs).
Proof.
  intros Hhs. unfold TailStagingLogs.
  assert (forall st, unconnected st ->
            closeCalls (fold_left step hs st) = closeCalls st
            /\ unconnected (fold_left step hs st)) as H.
  { induction Hhs as [|h hs Hh _ IH]; intros st Hst; [now split|].
    cbn [fold_left].
    destruct (unconnected_step st h Hst Hh) as [Hu Hc].
    destruct (IH _ Hu) as [Hc' Hu']. split; [congruence|assumption]. }
  apply H. now left.
Qed.

Lemma TailStagingLogs_closes_only_connected_witness :
  closeCalls (TailStagingLogs
                [Message (mkLoggable "STG" "-----> Staging"); StopSignal;
                 StopSignal; MessagesClosed]) = 0%nat
  /\ unconnected (TailStagingLogs
                    [Message (mkLoggable "STG" "-----> Staging"); StopSignal;
                     StopSignal; MessagesClosed]).
Proof.
  apply (TailStagingLogs_closes_only_connected
           [Message (mkLoggable "STG" "-----> Staging"); StopSignal;
            StopSignal; MessagesClosed]).
  repeat constructor.
Defined.

Lemma step_stays_returned st h :
  returned st = true -> returned (step st h) = true.
Proof.
  intros Hr. destruct h; cbn [step]; try (rewrite Hr; exact Hr).
  unfold onConnect. destruct (negb _); exact Hr.
Qed.

Lemma step_done st h :
  doneDone st = (if returned st then 1%nat else 0%nat) ->
  doneDone (step st h) = (if returned (step st h) then 1%nat else 0%nat).
Proof.
  intros Hst. destruct st as [c ready done closes ret out].
  cbn [doneDone returned] in Hst.
  destruct h, ret, c; cbn in *; try assumption;
    try destruct (_ =? _)%string; cbn; congruence.
Qed.

(** X5.  The done signal.  Whatever happens, and in whatever order, the
    tailer calls [doneWait.Done()] once when its loop returns and not at
    all before; once returned it stays returned, so the signal is never
    given twice. *)
Theorem TailStagingLogs_done_signal (hs more : list Happening) :
  doneDone (TailStagingLogs hs)
  = (if returned (TailStagingLogs hs) then 1%nat else 0%nat)
  /\ (returned (TailStagingLogs hs) = true ->
      returned (TailStagingLogs (hs ++ more)) = true
      /\ doneDone (TailStagingLogs (hs ++ more)) = 1%nat).
Proof.
  assert (forall l st,
            doneDone st = (if returned st then 1%nat else 0%nat) ->
            doneDone (run st l)
            = (if returned (run st l) then 1%nat else 0%nat)) as Hdone.
  { induction l as [|h l IH]; intros st Hst; [exact Hst|].
    cbn [run fold_left]. apply IH. now apply step_done. }
  assert (forall l st, returned st = true -> returned (run st l) = true)
    as Hstay.
  { induction l as [|h l IH]; intros st Hst; [exact Hst|].
    cbn [run fold_left]. apply IH. now apply step_stays_returned. }
  unfold TailStagingLogs.
  change (fold_left step ?l initial) with (run initial l).
  split; [now apply Hdone|].
  intros Hret. rewrite run_app.
  pose proof (Hstay more _ Hret) as Hret'.
  split; [exact Hret'|].
  rewrite <- run_app. rewrite (Hdone (hs ++ more)%list initial eq_refl).
  rewrite run_app. now rewrite Hret'.
Qed.

Lemma TailStagingLogs_done_signal_witness :
  returned (TailStagingLogs
              ([OnConnect; StopSignal; MessagesClosed]
               ++ [StopSignal; MessagesClosed; OnConnect])) = true
  /\ doneDone (TailStagingLogs
                 ([OnConnect; StopSignal; MessagesClosed]
                  ++ [StopSignal; MessagesClosed; OnConnect])) = 1%nat.
Proof.
  apply (TailStagingLogs_done_signal [OnConnect; StopSignal; MessagesClosed]
           [StopSignal; MessagesClosed; OnConnect]).
  reflexivity.
Defined.

End TailerExtras.

(** ** InstanceCounter *)

Section CounterExtras.
Variable tg : InstanceTags.
Hypothesis Hdistinct : tags_distinct tg.

Lemma startingDetailsOf_cons s i l :
  startingDetailsOf s (i :: l)
  = (if (Instance.State i =? s) && negb (Instance.Details i =? EmptyString)
     then {[ Instance.Details i ]} ∪ startingDetailsOf s l
     else startingDetailsOf s l).
Proof.
  unfold startingDetailsOf. cbn [List.filter].
  destruct (_ && _); reflexivity.
Qed.

(** One turn of the loop adds the detail of a starting instance, if it
    has one, and leaves the set alone otherwise. *)
Lemma countInstance_details c i :
  startingDetails (countInstance tg c i)
  = (if (Instance.State i =? InstanceStarting tg)
        && negb (Instance.Details i =? EmptyString)
     then {[ Instance.Details i ]} ∪ startingDetails c
     else startingDetails c).
Proof.
  destruct (tags_apart tg Hdistinct) as (Hrs & _).
  unfold countInstance.
  destruct (String.eqb_spec (Instance.State i) (InstanceRunning tg)) as [Hr|Hr].
  - destruct (String.eqb_spec (Instance.State i) (InstanceStarting tg));
      [congruence|reflexivity].
  - destruct (String.eqb_spec (Instance.State i) (InstanceStarting tg)).
    + cbn [startingDetails andb].
      destruct (Instance.Details i =? EmptyString); reflexivity.
    + cbn [andb].
      repeat match goal with
             | |- context [(?a =? ?b)%string] => destruct (a =? b)%string
             end; reflexivity.
Qed.

Lemma countInstance_fold_details l : forall c,
  startingDetails (fold_left (countInstance tg) l c)
  = startingDetailsOf (InstanceStarting tg) l ∪ startingDetails c.
Proof.
  induction l as [|i l IH]; intros c; cbn [fold_left].
  - change (startingDetailsOf (InstanceStarting tg) []) with (∅ : gset string).
    now rewrite (left_id_L ∅ (∪)).
  - rewrite IH, countInstance_details, startingDetailsOf_cons.
    destruct (_ && _); [|reflexivity].
    rewrite !(assoc_L (∪)).
    now rewrite (comm_L (∪) (startingDetailsOf (InstanceStarting tg) l)).
Qed.

(** The snapshot the loop computes is the snapshot read off the list. *)
Lemma countInstances_snapshotOf l :
  Z.of_nat (length l) < 2 ^ 63 ->
  countInstances tg l = snapshotOf tg l.
Proof.
  intros Hlen. unfold countInstances, snapshotOf.
  pose proof (countInstance_fold tg Hdistinct l
                (mkCount 0 0 ∅ 0 0 0 (Z.of_nat (length l)))) as H.
  pose proof (countInstance_fold_details l
                (mkCount 0 0 ∅ 0 0 0 (Z.of_nat (length l)))) as Hd.
  destruct (fold_left (countInstance tg) l _) as [r s sd f d c t].
  cbn [running starting startingDetails flapping down crashed total] in *.
  destruct H as (Hr & Hs & Hf & Hdn & Hc & Ht).
  { unfold fits; cbn. lia. }
  subst. f_equal; try lia. apply (right_id_L ∅ (∪)).
Qed.

End CounterExtras.

Lemma filter_bool_Permutation {A} (f : A -> bool) (l1 l2 : list A) :
  Permutation l1 l2 -> Permutation (List.filter f l1) (List.filter f l2).
Proof.
  induction 1 as [|x l1 l2 _ IH|x y l|l1 l2 l3 _ IH1 _ IH2];
    cbn [List.filter].
  - constructor.
  - destruct (f x); [now constructor|exact IH].
  - destruct (f x), (f y); try reflexivity. constructor.
  - now transitivity (List.filter f l2).
Qed.

(** X6.  The starting details of the snapshot are exactly the non-empty
    detail texts of the instances whose state is [starting]: each such
    text is in the set once however many instances carry it, and the
    details of instances in any other state are not collected. *)
Theorem fetchInstanceCount_startingDetails
    (tg : InstanceTags) (instances : list Instance.t) (detail : string) :
  tags_distinct tg ->
  detail ∈ startingDetails (countInstances tg instances)
  <-> detail <> EmptyString
      /\ exists inst, In inst instances
                      /\ Instance.State inst = InstanceStarting tg
                      /\ Instance.Details inst = detail.
Proof.
  intros Hd. unfold countInstances.
  rewrite (countInstance_fold_details tg Hd). cbn [startingDetails].
  unfold startingDetailsOf.
  rewrite elem_of_union, elem_of_list_to_set, list_elem_of_In, in_map_iff.
  split.
  - intros [(inst & <- & Hin)|Hempty];
      [|now apply not_elem_of_empty in Hempty].
    apply filter_In in Hin as [Hin Hcond].
    apply andb_prop in Hcond as [Hs Hne].
    apply String.eqb_eq in Hs. apply negb_true_iff, String.eqb_neq in Hne.
    split; [exact Hne|]. now exists inst.
  - intros (Hne & inst & Hin & Hs & <-). left. exists inst.
    split; [reflexivity|]. apply filter_In. split; [exact Hin|].
    apply andb_true_intro. split.
    + now apply String.eqb_eq.
    + now apply negb_true_iff, String.eqb_neq.
Qed.

Lemma fetchInstanceCount_startingDetails_witness :
  "waiting for droplet" ∈ startingDetails (countInstances Sample.tags
     [Instance.mk "starting" "waiting for droplet";
      Instance.mk "down" "out of memory";
      Instance.mk "starting" EmptyString;
      Instance.mk "starting" "waiting for droplet"]).
Proof.
  apply (fetchInstanceCount_startingDetails Sample.tags).
  - apply (bool_decide_unpack _). vm_compute. exact I.
  - split; [discriminate|].
    exists (Instance.mk "starting" "waiting for droplet").
    split; [now left|]. split; reflexivity.
Defined.

(** X7.  The snapshot does not depend on the order in which the
    repository lists the instances, and neither does the progress line
    made of it. *)
Theorem fetchInstanceCount_order_irrelevant
    (tx : Texts) (tg : InstanceTags) (l1 l2 : list Instance.t) :
  tags_distinct tg ->
  Z.of_nat (length l1) < 2 ^ 63 ->
  Permutation l1 l2 ->
  countInstances tg l1 = countInstances tg l2
  /\ instancesDetails tx (countInstances tg l1)
     = instancesDetails tx (countInstances tg l2).
Proof.
  intros Hd Hlen Hperm.
  assert (countInstances tg l1 = countInstances tg l2) as Heq.
  { pose proof (Permutation_length Hperm) as Hl.
    rewrite !(countInstances_snapshotOf tg Hd) by lia.
    unfold snapshotOf, tagged, startingDetailsOf.
    assert (forall f, length (List.filter f l1) = length (List.filter f l2))
      as Hf.
    { intros f. apply Permutation_length. now apply filter_bool_Permutation. }
    rewrite !Hf, Hl. f_equal.
    apply set_eq. intros d. rewrite !elem_of_list_to_set.
    assert (Permutation
              (map Instance.Details (List.filter
                 (fun i => (Instance.State i =? InstanceStarting tg)
                           && negb (Instance.Details i =? EmptyString)) l1))
              (map Instance.Details (List.filter
                 (fun i => (Instance.State i =? InstanceStarting tg)
                           && negb (Instance.Details i =? EmptyString)) l2)))
      as Hp.
    { apply Permutation_map. now apply filter_bool_Permutation. }
    now rewrite Hp. }
  split; [exact Heq|now rewrite Heq].
Qed.

Lemma fetchInstanceCount_order_irrelevant_witness :
  countInstances Sample.tags mixedInstances
  = countInstances Sample.tags (rev mixedInstances)
  /\ instancesDetails Sample.texts (countInstances Sample.tags mixedInstances)
     = instancesDetails Sample.texts
         (countInstances Sample.tags (rev mixedInstances)).
Proof.
  apply (fetchInstanceCount_order_irrelevant Sample.texts Sample.tags).
  - apply (bool_decide_unpack _). vm_compute. exact I.
  - vm_compute. reflexivity.
  - apply Permutation_rev.
Defined.

(** ** The start timeout *)

Lemma int_wrap_small z : - 2 ^ 63 <= z < 2 ^ 63 -> int_wrap z = z.
Proof. intros Hz. unfold int_wrap. rewrite Z.mod_small; lia. Qed.

(** X8.  [SetStartTimeoutInSeconds] sets the startup timeout to the given
    number of seconds exactly, as long as that number is between
    -9223372036 and 9223372036 (what a 64-bit count of nanoseconds
    holds), and touches no other field. *)
Theorem SetStartTimeoutInSeconds_exact (timeout : Z) (cmd : Start) :
  -9223372036 <= timeout <= 9223372036 ->
  StartupTimeout (SetStartTimeoutInSeconds timeout cmd)
  = timeout * time_Second
  /\ StagingTimeout (SetStartTimeoutInSeconds timeout cmd) = StagingTimeout cmd
  /\ PingerThrottle (SetStartTimeoutInSeconds timeout cmd) = PingerThrottle cmd
  /\ LogServerConnectionTimeout (SetStartTimeoutInSeconds timeout cmd)
     = LogServerConnectionTimeout cmd.
Proof.
  intros Ht. unfold SetStartTimeoutInSeconds, time_Second.
  cbn [StartupTimeout StagingTimeout PingerThrottle LogServerConnectionTimeout].
  rewrite int_wrap_small by lia. repeat split.
Qed.

Lemma SetStartTimeoutInSeconds_exact_witness :
  StartupTimeout (SetStartTimeoutInSeconds 180 Sample.defaults)
  = 180 * time_Second
  /\ StagingTimeout (SetStartTimeoutInSeconds 180 Sample.defaults)
     = StagingTimeout Sample.defaults
  /\ PingerThrottle (SetStartTimeoutInSeconds 180 Sample.defaults)
     = PingerThrottle Sample.defaults
  /\ LogServerConnectionTimeout (SetStartTimeoutInSeconds 180 Sample.defaults)
     = LogServerConnectionTimeout Sample.defaults.
Proof.
  apply (SetStartTimeoutInSeconds_exact 180 Sample.defaults). lia.
Defined.

(** ** InstancePoller *)

Section InstanceExtras.
Variable tx : Texts.
Variable tg : InstanceTags.
Variable cmd : Start.

(** A startup timeout that is not positive: the timer has fired before
    the first turn of the loop. *)
Lemma waitForOneRunningInstance_no_time app w :
  StartupTimeout cmd <= 0 ->
  waitForOneRunningInstance tx tg cmd app w
  = Some (Some (startTimeoutMessage tx app), w).
Proof.
  intros Ht. rewrite waitForOneRunningInstance_unfold, instanceLoop_unfold.
  destruct (Z.geb_spec (now w - now w) (StartupTimeout cmd)); [reflexivity|lia].
Qed.

Lemma instanceLoop_outcomes app start : forall fuel w r w1,
  instanceLoop tx tg cmd fuel start app w = Some (r, w1) ->
  r = None
  \/ r = Some (startTimeoutMessage tx app)
  \/ r = Some (startUnsuccessfulMessage tx app).
Proof.
  induction fuel as [|fuel IH]; intros w r w1; rewrite instanceLoop_unfold;
    destruct (_ >=? _)%Z; try (intros [= <- <-]; auto); try discriminate.
  destruct (instanceAnswers w) as [|[d [instances [err|]]] rest];
    try discriminate; [apply IH|].
  cbn zeta. destruct (_ >? _)%Z; [intros [= <- <-]; auto|].
  destruct (_ || _); [intros [= <- <-]; auto|apply IH].
Qed.

Lemma instanceLoop_returns app start : forall fuel w,
  0 < PingerThrottle cmd ->
  (length (instanceAnswers w) < fuel)%nat ->
  StartupTimeout cmd - (now w - start)
    <= Z.of_nat (length (instanceAnswers w)) * PingerThrottle cmd ->
  exists r w1, instanceLoop tx tg cmd fuel start app w = Some (r, w1).
Proof.
  induction fuel as [|fuel IH]; intros w Hthr Hfuel Hlen; [lia|].
  rewrite instanceLoop_unfold.
  destruct (Z.geb_spec (now w - start) (StartupTimeout cmd)); [eauto|].
  destruct (instanceAnswers w) as [|[d [instances [err|]]] rest] eqn:Hw.
  - cbn [length] in Hlen. lia.
  - apply IH; [assumption|cbn in *; lia|].
    cbn [afterSleep afterEmit afterGetInstances now instanceAnswers length]
      in *. lia.
  - cbn zeta. destruct (_ >? _)%Z; [eauto|].
    destruct (_ || _); [eauto|].
    apply IH; [assumption|cbn in *; lia|].
    cbn [afterSleep afterEmit afterGetInstances now instanceAnswers length]
      in *. lia.
Qed.

Lemma instanceLoop_fetches app start : forall fuel w r w1,
  0 < PingerThrottle cmd ->
  instanceLoop tx tg cmd fuel start app w = Some (r, w1) ->
  exists k : nat,
    length (instanceAnswers w) = (k + length (instanceAnswers w1))%nat
    /\ (k = 0%nat
        \/ now w - start + (Z.of_nat k - 1) * PingerThrottle cmd
           < StartupTimeout cmd).
Proof.
  induction fuel as [|fuel IH]; intros w r w1 Hthr;
    rewrite instanceLoop_unfold;
    destruct (Z.geb_spec (now w - start) (StartupTimeout cmd));
    try (intros [= <- <-]; exists 0%nat; split; [reflexivity|now left]);
    try discriminate.
  destruct (instanceAnswers w) as [|[d [instances [err|]]] rest] eqn:Hw;
    try discriminate.
  - intros Hrun. destruct (IH _ _ _ Hthr Hrun) as (k & Hk & Hb).
    exists (S k). cbn [afterSleep afterEmit afterGetInstances now
      instanceAnswers length] in *.
    split; [lia|right]. destruct Hb as [-> | Hb]; lia.
  - cbn zeta. destruct (_ >? _)%Z;
      [intros [= <- <-]; exists 1%nat; cbn; split; [reflexivity|right; lia]|].
    destruct (_ || _);
      [intros [= <- <-]; exists 1%nat; cbn; split; [reflexivity|right; lia]|].
    intros Hrun. destruct (IH _ _ _ Hthr Hrun) as (k & Hk & Hb).
    exists (S k). cbn [afterSleep afterEmit afterGetInstances now
      instanceAnswers length] in *.
    split; [lia|right]. destruct Hb as [-> | Hb]; lia.
Qed.

End InstanceExtras.

(** X9.  A startup timeout of zero seconds or less, as
    [SetStartTimeoutInSeconds] sets it, makes the instance poller return
    the timeout error at once: it asks for no instance, warns of nothing
    and leaves the world as it is.  A timeout of more than 9223372036
    seconds wraps around to a negative duration, with the same outcome. *)
Theorem waitForOneRunningInstance_no_startup_time
    (tx : Texts) (tg : InstanceTags) (cmd : Start) (app : Application)
    (w : World) (timeout : Z) :
  -9223372036 <= timeout <= 0 \/ 9223372037 <= timeout <= 18446744073 ->
  waitForOneRunningInstance tx tg (SetStartTimeoutInSeconds timeout cmd) app w
  = Some (Some (startTimeoutMessage tx app), w).
Proof.
  intros Ht. apply waitForOneRunningInstance_no_time.
  unfold SetStartTimeoutInSeconds, time_Second. cbn [StartupTimeout].
  destruct Ht as [Ht|Ht].
  - rewrite int_wrap_small by lia. lia.
  - unfold int_wrap.
    replace (timeout * 1000000000 + 2 ^ 63)
      with (timeout * 1000000000 - 2 ^ 63 + 1 * 2 ^ 64) by lia.
    rewrite Z.mod_add by lia. rewrite Z.mod_small by lia. lia.
Qed.

Lemma waitForOneRunningInstance_no_startup_time_witness :
  waitForOneRunningInstance Sample.texts Sample.tags
    (SetStartTimeoutInSeconds 0 Sample.defaults) Sample.staged slowStart
  = Some (Some (startTimeoutMessage Sample.texts Sample.staged), slowStart).
Proof.
  apply (waitForOneRunningInstance_no_startup_time Sample.texts Sample.tags
           Sample.defaults Sample.staged slowStart 0).
  left. lia.
Defined.

(** X10.  Whatever the repository answers, the instance poller returns
    nil, the start-timeout error or the start-unsuccessful error, and
    nothing else: the error of a failed fetch is never what it returns. *)
Theorem waitForOneRunningInstance_outcomes
    (tx : Texts) (tg : InstanceTags) (cmd : Start) (app : Application)
    (w : World) (r : option error) (w1 : World) :
  waitForOneRunningInstance tx tg cmd app w = Some (r, w1) ->
  r = None
  \/ r = Some (startTimeoutMessage tx app)
  \/ r = Some (startUnsuccessfulMessage tx app).
Proof.
  rewrite waitForOneRunningInstance_unfold. apply instanceLoop_outcomes.
Qed.

Lemma waitForOneRunningInstance_outcomes_witness :
  exists r w1,
    waitForOneRunningInstance Sample.texts Sample.tags Sample.defaults
      Sample.staged crashingStart = Some (r, w1)
    /\ (r = None
        \/ r = Some (startTimeoutMessage Sample.texts Sample.staged)
        \/ r = Some (startUnsuccessfulMessage Sample.texts Sample.staged)).
Proof.
  eexists _, _. split; [vm_compute; reflexivity|].
  eapply (waitForOneRunningInstance_outcomes Sample.texts Sample.tags
            Sample.defaults Sample.staged crashingStart).
  vm_compute. reflexivity.
Defined.

(** X11.  With a positive poll interval and answers enough to last until
    the startup deadline, the instance poller returns. *)
Theorem waitForOneRunningInstance_returns
    (tx : Texts) (tg : InstanceTags) (cmd : Start) (app : Application)
    (w : World) :
  0 < PingerThrottle cmd ->
  StartupTimeout cmd
    <= Z.of_nat (length (instanceAnswers w)) * PingerThrottle cmd ->
  exists r w1, waitForOneRunningInstance tx tg cmd app w = Some (r, w1).
Proof.
  intros Hthr Hlen. rewrite waitForOneRunningInstance_unfold.
  apply instanceLoop_returns; [assumption|lia|lia].
Qed.

Lemma waitForOneRunningInstance_returns_witness :
  exists r w1,
    waitForOneRunningInstance Sample.texts Sample.tags
      (SetStartTimeoutInSeconds 20 Sample.defaults) Sample.staged flakyFetch
    = Some (r, w1).
Proof.
  apply (waitForOneRunningInstance_returns Sample.texts Sample.tags
           (SetStartTimeoutInSeconds 20 Sample.defaults) Sample.staged
           flakyFetch).
  - vm_compute. reflexivity.
  - vm_compute. discriminate.
Defined.

(** X12.  The instance poller asks for the instances at most once per
    poll interval of the startup timeout, and once more: with a positive
    poll interval, if it made [n] fetches, [n] is zero or [n - 1] poll
    intervals are less than the startup timeout. *)
Theorem waitForOneRunningInstance_fetch_bound
    (tx : Texts) (tg : InstanceTags) (cmd : Start) (app : Application)
    (w : World) (r : option error) (w1 : World) :
  0 < PingerThrottle cmd ->
  waitForOneRunningInstance tx tg cmd app w = Some (r, w1) ->
  instanceFetches w w1 = 0%nat
  \/ (Z.of_nat (instanceFetches w w1) - 1) * PingerThrottle cmd
     < StartupTimeout cmd.
Proof.
  intros Hthr Hrun. rewrite waitForOneRunningInstance_unfold in Hrun.
  destruct (instanceLoop_fetches tx tg cmd app _ _ _ _ _ Hthr Hrun)
    as (k & Hk & Hb).
  unfold instanceFetches. rewrite Hk.
  replace (k + length (instanceAnswers w1) - length (instanceAnswers w1))%nat
    with k by lia.
  destruct Hb as [-> | Hb]; [now left|right; lia].
Qed.

Lemma waitForOneRunningInstance_fetch_bound_witness :
  exists w1,
    instanceFetches flakyFetch w1 = 4%nat
    /\ (instanceFetches flakyFetch w1 = 0%nat
        \/ (Z.of_nat (instanceFetches flakyFetch w1) - 1)
           * PingerThrottle Sample.defaults
           < StartupTimeout Sample.defaults).
Proof.
  eexists. split;
    [|eapply (waitForOneRunningInstance_fetch_bound Sample.texts Sample.tags
                Sample.defaults Sample.staged flakyFetch);
      [vm_compute; reflexivity|vm_compute; reflexivity]].
  vm_compute. reflexivity.
Defined.

(** ** StagePoller *)

Section StageExtras.
Variable tx : Texts.
Variable cmd : Start.

Lemma stagePollTime_cons a l :
  stagePollTime cmd (a :: l)
  = Z.of_N (fst a) + Z.max 0 (PingerThrottle cmd) + stagePollTime cmd l.
Proof. reflexivity. Qed.

Lemma stagePollTime_nil : stagePollTime cmd [] = 0.
Proof. reflexivity. Qed.

Lemma stagePollTime_nonneg answers : 0 <= stagePollTime cmd answers.
Proof.
  induction answers as [|a l IH];
    [rewrite stagePollTime_nil | rewrite stagePollTime_cons]; lia.
Qed.

Lemma stagePollTime_app l1 l2 :
  stagePollTime cmd (l1 ++ l2) = stagePollTime cmd l1 + stagePollTime cmd l2.
Proof.
  induction l1 as [|a l1 IH]; cbn [app];
    rewrite ?stagePollTime_cons, ?stagePollTime_nil; lia.
Qed.

Lemma afterStagePolls_now app answers rest : forall w,
  now (afterStagePolls cmd app answers rest w)
  = now w + stagePollTime cmd answers.
Proof.
  revert app. induction answers as [|a l IH]; intros app w;
    cbn [afterStagePolls].
  - rewrite stagePollTime_nil. lia.
  - rewrite IH, stagePollTime_cons. cbn [afterSleep afterGetApp now]. lia.
Qed.

Lemma afterStagePolls_answers app answers rest : forall w,
  appAnswers w = (answers ++ rest)%list ->
  appAnswers (afterStagePolls cmd app answers rest w) = rest.
Proof.
  revert app. induction answers as [|a l IH]; intros app w Hw;
    cbn [afterStagePolls]; [exact Hw|].
  now apply IH.
Qed.

Lemma last_cons_default {A} (m : list A) : forall x d,
  List.last (x :: m) d = List.last m x.
Proof.
  induction m as [|y m IH]; intros x d; [reflexivity|].
  change (List.last (x :: y :: m) d) with (List.last (y :: m) d).
  now rewrite !IH.
Qed.

Lemma lastFetched_cons app a l :
  lastFetched app (a :: l) = lastFetched (fst (snd a)) l.
Proof. unfold lastFetched. cbn [map]. apply last_cons_default. Qed.

(** Polls that show a staging still under way, each begun before the
    deadline: the loop is at its next turn, holding the last record. *)
Lemma stagingLoop_polls start (pre : list (Answer Application)) :
  forall fuel app w rest,
  appAnswers w = (pre ++ rest)%list ->
  stillStaging app ->
  Forall stagingAnswer pre ->
  (pre = [] \/ now w - start + stagePollTime cmd (removelast pre)
               < StagingTimeout cmd) ->
  stagingLoop cmd (length pre + fuel) start app w
  = stagingLoop cmd fuel start (lastFetched app pre)
      (afterStagePolls cmd app pre rest w).
Proof.
  induction pre as [|a pre IH]; intros fuel app w rest Hw Happ Hpre Ht;
    [reflexivity|].
  destruct Ht as [|Ht]; [discriminate|].
  apply Forall_cons in Hpre as [[Herr Ha] Hpre].
  destruct a as [d [a e]]. cbn [fst snd] in Herr, Ha. subst e.
  cbn [length Nat.add]. rewrite stagingLoop_unfold.
  assert (keepPolling cmd start app w = true) as ->.
  { unfold keepPolling. destruct Happ as [Hs Hf].
    apply String.eqb_neq in Hs, Hf. rewrite Hs, Hf. cbn [negb andb].
    apply Z.ltb_lt.
    match type of Ht with
    | context [stagePollTime cmd ?l] => pose proof (stagePollTime_nonneg l)
    end.
    lia. }
  rewrite (appRepo_GetApp_run _ _ _ _ _ Hw).
  rewrite lastFetched_cons. cbn [afterStagePolls fst snd].
  apply IH; [reflexivity|exact Ha|exact Hpre|].
  destruct pre as [|b pre]; [now left|right].
  change (removelast ((d, (a, None)) :: b :: pre))
    with ((d, (a, None)) :: removelast (b :: pre)) in Ht.
  rewrite stagePollTime_cons in Ht.
  cbn [afterSleep afterGetApp now fst] in *. lia.
Qed.

Lemma stagePollTime_removelast answers :
  stagePollTime cmd (removelast answers) <= stagePollTime cmd answers.
Proof.
  induction answers as [|a l IH]; [reflexivity|].
  destruct l as [|b l].
  - cbn [removelast]. rewrite stagePollTime_cons, !stagePollTime_nil. lia.
  - change (removelast (a :: b :: l)) with (a :: removelast (b :: l)).
    rewrite !(stagePollTime_cons a). lia.
Qed.

Lemma stagingLoop_fetches start : forall fuel app w r w1,
  0 < PingerThrottle cmd ->
  stagingLoop cmd fuel start app w = Some (r, w1) ->
  exists k : nat,
    length (appAnswers w) = (k + length (appAnswers w1))%nat
    /\ (k = 0%nat
        \/ now w - start + (Z.of_nat k - 1) * PingerThrottle cmd
           < StagingTimeout cmd).
Proof.
  induction fuel as [|fuel IH]; intros app w r w1 Hthr;
    rewrite stagingLoop_unfold;
    destruct (keepPolling cmd start app w) eqn:Hk;
    try (intros [= <- <-]; exists 0%nat; split; [reflexivity|now left]);
    try discriminate.
  unfold keepPolling in Hk. apply andb_prop in Hk as [_ Hk].
  apply Z.ltb_lt in Hk.
  destruct (appAnswers w) as [|[d [a e]] rest] eqn:Hw.
  - now rewrite appRepo_GetApp_silent.
  - rewrite (appRepo_GetApp_run _ _ _ _ _ Hw). destruct e as [err|].
    + intros [= <- <-]. exists 1%nat. cbn. split; [reflexivity|right; lia].
    + intros Hrun. destruct (IH _ _ _ _ Hthr Hrun) as (k & Hkk & Hb).
      exists (S k). cbn [afterSleep afterGetApp now appAnswers length] in *.
      split; [lia|right]. destruct Hb as [-> | Hb]; lia.
Qed.

Lemma lastFetched_stillStaging pre : forall app,
  stillStaging app -> Forall stagingAnswer pre ->
  stillStaging (lastFetched app pre).
Proof.
  induction pre as [|a pre IH]; intros app Happ Hpre; [exact Happ|].
  apply Forall_cons in Hpre as [[_ Ha] Hpre].
  rewrite lastFetched_cons. now apply IH.
Qed.

(** From the start of the poller: polls that show a staging still under
    way and end before the deadline, then one more answer. *)
Lemma stagingFetch_polls app w pre (x : Answer Application) rest :
  appAnswers w = (pre ++ x :: rest)%list ->
  stillStaging app ->
  Forall stagingAnswer pre ->
  StagingTimeout cmd <> 0 ->
  stagePollTime cmd pre < StagingTimeout cmd ->
  stagingFetch cmd (now w) app w
  = match snd (snd x) with
    | Some err =>
        Some ((fst (snd x), Some err),
              afterGetApp (GUID (lastFetched app pre)) (fst x) rest
                (afterStagePolls cmd app pre (x :: rest) w))
    | None =>
        stagingLoop cmd (S (length rest)) (now w) (fst (snd x))
          (afterStagePolls cmd (lastFetched app pre) [x] rest
             (afterStagePolls cmd app pre (x :: rest) w))
    end.
Proof.
  intros Hw Happ Hpre Hnz Ht. unfold stagingFetch.
  destruct (Z.eqb_spec (StagingTimeout cmd) 0); [contradiction|].
  replace (S (length (appAnswers w)))
    with (length pre + S (S (length rest)))%nat
    by (rewrite Hw, length_app; cbn [length]; lia).
  pose proof (stagePollTime_removelast pre) as Hrl.
  rewrite (stagingLoop_polls (now w) pre _ app w (x :: rest) Hw Happ Hpre)
    by (right; lia).
  rewrite stagingLoop_unfold.
  assert (keepPolling cmd (now w) (lastFetched app pre)
            (afterStagePolls cmd app pre (x :: rest) w) = true) as ->.
  { unfold keepPolling.
    destruct (lastFetched_stillStaging pre app Happ Hpre) as [Hs Hf].
    apply String.eqb_neq in Hs, Hf. rewrite Hs, Hf. cbn [negb andb].
    apply Z.ltb_lt. rewrite afterStagePolls_now. lia. }
  destruct x as [d [a e]].
  rewrite (appRepo_GetApp_run _ _ d (a, e) rest)
    by (now apply afterStagePolls_answers).
  cbn [fst snd]. destruct e; reflexivity.
Qed.

Lemma waitForInstancesToStage_answers app w r w' :
  waitForInstancesToStage tx cmd app w = Some (r, w') ->
  exists r0 w1,
    stagingFetch cmd (now w) app w = Some (r0, w1)
    /\ appAnswers w' = appAnswers w1.
Proof.
  rewrite waitForInstancesToStage_unfold.
  destruct (stagingFetch cmd (now w) app w) as [[[a e] w1]|];
    [|discriminate].
  intros Hv. exists (a, e), w1. split; [reflexivity|].
  destruct e as [err|].
  - unfold stagingVerdict, ret in Hv. cbn [snd] in Hv. now inversion Hv.
  - rewrite stagingVerdict_run in Hv.
    destruct (PackageState a =? "FAILED"); now inversion Hv.
Qed.

End StageExtras.

(** X13.  The stage poller asks for the application at most once per poll
    interval of the staging timeout, and once more: with a positive poll
    interval and a staging timeout other than zero, if it made [n]
    fetches, [n] is zero or [n - 1] poll intervals are less than the
    staging timeout.  With a staging timeout of zero it made one. *)
Theorem waitForInstancesToStage_fetch_bound
    (tx : Texts) (cmd : Start) (app : Application) (w : World)
    (r : bool * option error) (w' : World) :
  0 < PingerThrottle cmd ->
  waitForInstancesToStage tx cmd app w = Some (r, w') ->
  (StagingTimeout cmd = 0 -> appFetches w w' = 1%nat)
  /\ (StagingTimeout cmd <> 0 ->
      appFetches w w' = 0%nat
      \/ (Z.of_nat (appFetches w w') - 1) * PingerThrottle cmd
         < StagingTimeout cmd).
Proof.
  intros Hthr Hrun.
  destruct (waitForInstancesToStage_answers tx cmd _ _ _ _ Hrun)
    as (r0 & w1 & Hfetch & Hans).
  unfold appFetches. rewrite Hans. unfold stagingFetch in Hfetch.
  split; intros Hz.
  - rewrite Hz in Hfetch. cbn [Z.eqb] in Hfetch.
    destruct (appAnswers w) as [|[d x] rest] eqn:Hw.
    + now rewrite appRepo_GetApp_silent in Hfetch.
    + rewrite (appRepo_GetApp_run _ _ _ _ _ Hw) in Hfetch.
      inversion Hfetch. cbn [afterGetApp appAnswers length]. lia.
  - destruct (Z.eqb_spec (StagingTimeout cmd) 0); [contradiction|].
    destruct (stagingLoop_fetches cmd _ _ _ _ _ _ Hthr Hfetch)
      as (k & Hk & Hb).
    rewrite Hk.
    replace (k + length (appAnswers w1) - length (appAnswers w1))%nat
      with k by lia.
    destruct Hb as [-> | Hb]; [now left|right; lia].
Qed.

Lemma waitForInstancesToStage_fetch_bound_witness :
  exists w',
    appFetches stuckStaging w' = 10%nat
    /\ (Z.of_nat (appFetches stuckStaging w') - 1)
       * PingerThrottle Sample.oneMinute
       < StagingTimeout Sample.oneMinute.
Proof.
  eexists.
  edestruct (waitForInstancesToStage_fetch_bound Sample.texts
               Sample.oneMinute Sample.stopped stuckStaging)
    as [_ Hbound]; [vm_compute; reflexivity | vm_compute; reflexivity |].
  assert (StagingTimeout Sample.oneMinute <> 0) as Hnz
    by (vm_compute; discriminate).
  split; cycle 1.
  - destruct (Hbound Hnz) as [H0|Hb];
      [vm_compute in H0; discriminate | exact Hb].
  - vm_compute. reflexivity.
Defined.

(** X14.  A status fetch that fails while the staging is polled ends the
    polling at once: the error is returned as it is, with
    [staged = false], nothing is said on the UI, there is no sleep and no
    further fetch. *)
Theorem waitForInstancesToStage_fetch_error
    (tx : Texts) (cmd : Start) (app : Application) (w : World)
    (pre : list (Answer Application)) (d : N) (a : Application)
    (err : error) (rest : list (Answer Application)) :
  appAnswers w = (pre ++ (d, (a, Some err)) :: rest)%list ->
  stillStaging app ->
  Forall stagingAnswer pre ->
  StagingTimeout cmd <> 0 ->
  stagePollTime cmd pre < StagingTimeout cmd ->
  waitForInstancesToStage tx cmd app w
  = Some ((false, Some err),
          afterGetApp (GUID (lastFetched app pre)) d rest
            (afterStagePolls cmd app pre ((d, (a, Some err)) :: rest) w)).
Proof.
  intros Hw Happ Hpre Hnz Ht.
  rewrite waitForInstancesToStage_unfold.
  now rewrite (stagingFetch_polls cmd app w pre _ rest Hw Happ Hpre Hnz Ht).
Qed.

Lemma waitForInstancesToStage_fetch_error_witness :
  exists w',
    waitForInstancesToStage Sample.texts Sample.defaults Sample.stopped
      brokenPoll
    = Some ((false, Some "503 Service Unavailable"), w')
    /\ trace w'
       = [EvGetApp "app-guid"; EvSleep 5000000000;
          EvGetApp "app-guid"; EvSleep 5000000000;
          EvGetApp "app-guid"]
    /\ appAnswers w' = [Sample.after1s Sample.staged None].
Proof.
  eexists. split; [|split].
  - apply (waitForInstancesToStage_fetch_error Sample.texts Sample.defaults
             Sample.stopped brokenPoll
             [Sample.after1s Sample.pending None;
              Sample.after1s Sample.pending None]
             1000000000 zeroApplication "503 Service Unavailable"
             [Sample.after1s Sample.staged None]).
    + reflexivity.
    + split; discriminate.
    + repeat constructor; discriminate.
    + discriminate.
    + vm_compute. reflexivity.
  - vm_compute. reflexivity.
  - vm_compute. reflexivity.
Defined.

(** X15.  A staging that is seen to be done before the deadline: after
    polls that show it still under way, the fetch that shows [STAGED] is
    the last one, and if the sleep after it ends before the staging
    timeout the result is [(true, nil)]. *)
Theorem waitForInstancesToStage_staged_in_time
    (tx : Texts) (cmd : Start) (app : Application) (w : World)
    (pre : list (Answer Application)) (d : N) (a : Application)
    (rest : list (Answer Application)) :
  appAnswers w = (pre ++ (d, (a, None)) :: rest)%list ->
  stillStaging app ->
  Forall stagingAnswer pre ->
  PackageState a = "STAGED" ->
  stagePollTime cmd (pre ++ [(d, (a, None))]) < StagingTimeout cmd ->
  waitForInstancesToStage tx cmd app w
  = Some ((true, None),
          afterStagePolls cmd (lastFetched app pre) [(d, (a, None))] rest
            (afterStagePolls cmd app pre ((d, (a, None)) :: rest) w)).
Proof.
  intros Hw Happ Hpre Hstaged Ht.
  rewrite stagePollTime_app, stagePollTime_cons, stagePollTime_nil in Ht.
  cbn [fst] in Ht.
  pose proof (stagePollTime_nonneg cmd pre) as Hnn.
  rewrite waitForInstancesToStage_unfold.
  rewrite (stagingFetch_polls cmd app w pre _ rest Hw Happ Hpre)
    by lia.
  cbn [fst snd]. rewrite stagingLoop_unfold.
  unfold keepPolling at 1. rewrite Hstaged.
  cbn [String.eqb Ascii.eqb Bool.eqb negb andb].
  rewrite stagingVerdict_run, Hstaged.
  cbn [String.eqb Ascii.eqb Bool.eqb].
  cbn [afterStagePolls fst snd afterSleep afterGetApp now].
  rewrite afterStagePolls_now.
  destruct (Z.geb_spec (now w + stagePollTime cmd pre + Z.of_N d
                        + Z.max 0 (PingerThrottle cmd) - now w)
              (StagingTimeout cmd)); [lia|reflexivity].
Qed.

Lemma waitForInstancesToStage_staged_in_time_witness :
  exists w',
    waitForInstancesToStage Sample.texts Sample.oneMinute Sample.stopped
      quickStaging = Some ((true, None), w')
    /\ trace w'
       = [EvGetApp "app-guid"; EvSleep 5000000000;
          EvGetApp "app-guid"; EvSleep 5000000000].
Proof.
  eexists. split.
  - apply (waitForInstancesToStage_staged_in_time Sample.texts
             Sample.oneMinute Sample.stopped quickStaging
             [Sample.after1s Sample.pending None]
             1000000000 Sample.staged []).
    + reflexivity.
    + split; discriminate.
    + repeat constructor; discriminate.
    + reflexivity.
    + vm_compute. reflexivity.
  - vm_compute. reflexivity.
Defined.

(** X16.  An application record that is already [STAGED] or [FAILED] when
    the stage poller is called with a positive staging timeout is not
    fetched again: [STAGED] gives [(true, nil)] in an unchanged world,
    [FAILED] gives the staging-failure error after the empty line on the
    UI. *)
Theorem waitForInstancesToStage_settled_at_entry
    (tx : Texts) (cmd : Start) (app : Application) (w : World) :
  0 < StagingTimeout cmd ->
  (PackageState app = "STAGED" ->
     waitForInstancesToStage tx cmd app w = Some ((true, None), w))
  /\ (PackageState app = "FAILED" ->
      waitForInstancesToStage tx cmd app w
      = Some ((false, Some (stagingFailure tx app)),
              afterEmit (EvSay EmptyString) w)).
Proof.
  intros Ht.
  assert (stagingFetch cmd (now w) app w
          = stagingLoop cmd (S (length (appAnswers w))) (now w) app w)
    as Hfetch.
  { unfold stagingFetch.
    destruct (Z.eqb_spec (StagingTimeout cmd) 0); [lia|reflexivity]. }
  split; intros Hstate;
    rewrite waitForInstancesToStage_unfold, Hfetch, stagingLoop_unfold;
    unfold keepPolling; rewrite Hstate;
    cbn [String.eqb Ascii.eqb Bool.eqb negb andb];
    rewrite stagingVerdict_run, Hstate;
    cbn [String.eqb Ascii.eqb Bool.eqb]; [|reflexivity].
  destruct (Z.geb_spec (now w - now w) (StagingTimeout cmd));
    [lia|reflexivity].
Qed.

Lemma waitForInstancesToStage_settled_at_entry_witness :
  waitForInstancesToStage Sample.texts Sample.defaults Sample.staged
    stuckStaging = Some ((true, None), stuckStaging).
Proof.
  apply (waitForInstancesToStage_settled_at_entry Sample.texts
           Sample.defaults Sample.staged stuckStaging).
  - vm_compute. reflexivity.
  - reflexivity.
Defined.

(** ** What the computations add to the trace *)

Lemma emits_ret {A} P (a : A) : emits P (ret a).
Proof.
  intros w a' w' [= <- <-]. exists []. split; [now rewrite app_nil_r|constructor].
Qed.

Lemma emits_bind {A B} P (m : M A) (k : A -> M B) :
  emits P m -> (forall a, emits P (k a)) -> emits P (bind m k).
Proof.
  intros Hm Hk w b w'. rewrite bind_run.
  destruct (m w) as [[a w1]|] eqn:Hmw; [|discriminate].
  intros Hkw. destruct (Hm _ _ _ Hmw) as (evs1 & Ht1 & H1).
  destruct (Hk a _ _ _ Hkw) as (evs2 & Ht2 & H2).
  exists (evs1 ++ evs2)%list. split.
  - now rewrite Ht2, Ht1, app_assoc.
  - now apply Forall_app.
Qed.

Lemma emits_emit (P : Event -> Prop) e : P e -> emits P (emit e).
Proof.
  intros He w a w' [= _ <-]. exists [e]. split; [reflexivity|].
  now repeat constructor.
Qed.

Lemma emits_silent {A} P (m : M A) :
  (forall w a w', m w = Some (a, w') -> trace w' = trace w) -> emits P m.
Proof.
  intros Hm w a w' Hrun. exists []. split; [|constructor].
  rewrite app_nil_r. now apply (Hm _ _ _ Hrun).
Qed.

Lemma emits_world {A} P (m : World -> M A) :
  (forall w0, emits P (m w0)) -> emits P (fun w => m w w).
Proof. intros Hm w a w' Hrun. exact (Hm w _ _ _ Hrun). Qed.

Lemma emits_advance P d : emits P (advance d).
Proof. apply emits_silent. now intros w a w' [= _ <-]. Qed.

Lemma emits_time_Since P t : emits P (time_Since t).
Proof. apply emits_silent. now intros w a w' [= _ <-]. Qed.

Lemma emits_time_Now P : emits P time_Now.
Proof. apply emits_silent. now intros w a w' [= _ <-]. Qed.

Lemma emits_time_Sleep (P : Event -> Prop) d :
  P (EvSleep d) -> emits P (time_Sleep d).
Proof.
  intros Hd. unfold time_Sleep.
  apply emits_bind; [now apply emits_emit|intros _; apply emits_advance].
Qed.

Lemma emits_GetApp (P : Event -> Prop) guid :
  P (EvGetApp guid) -> emits P (appRepo_GetApp guid).
Proof.
  intros Hg. unfold appRepo_GetApp.
  apply emits_bind; [now apply emits_emit|intros _].
  apply emits_bind.
  - apply emits_silent. intros w a w'. unfold popApp.
    destruct (appAnswers w); [discriminate|]. now intros [= _ <-].
  - intros a. apply emits_bind; [apply emits_advance|intros _; apply emits_ret].
Qed.

Lemma emits_Update (P : Event -> Prop) guid state :
  P (EvUpdate guid state) -> emits P (appRepo_Update guid state).
Proof.
  intros Hg. unfold appRepo_Update.
  apply emits_bind; [now apply emits_emit|intros _].
  apply emits_bind.
  - apply emits_silent. intros w a w'. unfold popUpdate.
    destruct (updateAnswers w); [discriminate|]. now intros [= _ <-].
  - intros a. apply emits_bind; [apply emits_advance|intros _; apply emits_ret].
Qed.

Lemma emits_fetchInstanceCount (P : Event -> Prop) tg guid :
  P (EvGetInstances guid) -> emits P (fetchInstanceCount tg guid).
Proof.
  intros Hg. unfold fetchInstanceCount, appInstancesRepo_GetInstances.
  apply emits_bind.
  - apply emits_bind; [now apply emits_emit|intros _].
    apply emits_bind.
    + apply emits_silent. intros w a w'. unfold popInstances.
      destruct (instanceAnswers w); [discriminate|]. now intros [= _ <-].
    + intros a.
      apply emits_bind; [apply emits_advance|intros _; apply emits_ret].
  - intros r. destruct (snd r); apply emits_ret.
Qed.

Lemma emits_ShowApp (P : Event -> Prop) app org space :
  P (EvShowApp app org space) -> emits P (appDisplayer_ShowApp app org space).
Proof.
  intros Hs. unfold appDisplayer_ShowApp.
  apply emits_bind; [now apply emits_emit|intros _].
  apply emits_silent. intros w a w'. unfold popShow.
  destruct (showAnswers w); [discriminate|]. now intros [= _ <-].
Qed.

Lemma emits_stagingLoop cmd start : forall fuel app,
  emits stagingEvent (stagingLoop cmd fuel start app).
Proof.
  induction fuel as [|fuel IH]; intros app; cbn [stagingLoop];
    (apply emits_bind; [apply emits_time_Since|intros since]);
    destruct (_ && _); try apply emits_ret.
  - intros w a w'. discriminate.
  - apply emits_bind; [now apply emits_GetApp|intros r].
    destruct (snd r); [apply emits_ret|].
    apply emits_bind; [now apply emits_time_Sleep|intros _; apply IH].
Qed.

Lemma emits_waitForInstancesToStage tx cmd app :
  emits stagingEvent (waitForInstancesToStage tx cmd app).
Proof.
  unfold waitForInstancesToStage.
  apply emits_bind; [apply emits_time_Now|intros start].
  apply emits_bind.
  - unfold stagingFetch. destruct (_ =? _)%Z; [now apply emits_GetApp|].
    apply (emits_world stagingEvent
             (fun w0 => stagingLoop cmd (S (length (appAnswers w0))) start app)).
    intros w0. apply emits_stagingLoop.
  - intros r. unfold stagingVerdict. destruct (snd r); [apply emits_ret|].
    destruct (PackageState (fst r) =? "FAILED").
    + apply emits_bind; [now apply emits_emit|intros _].
      destruct (_ =? _)%string; apply emits_ret.
    + apply emits_bind; [apply emits_time_Since|intros since].
      destruct (_ >=? _)%Z; apply emits_ret.
Qed.

Lemma emits_instanceLoop tx tg cmd start app : forall fuel,
  emits instanceEvent (instanceLoop tx tg cmd fuel start app).
Proof.
  induction fuel as [|fuel IH]; cbn [instanceLoop];
    (apply emits_bind; [apply emits_time_Since|intros since]);
    destruct (_ >=? _)%Z; try apply emits_ret.
  - intros w a w'. discriminate.
  - apply emits_bind; [now apply emits_fetchInstanceCount|intros r].
    destruct (snd r).
    + apply emits_bind; [now apply emits_emit|intros _].
      apply emits_bind; [now apply emits_time_Sleep|intros _; apply IH].
    + apply emits_bind; [now apply emits_emit|intros _].
      destruct (_ >? _)%Z; [apply emits_ret|].
      destruct (_ || _); [apply emits_ret|].
      apply emits_bind; [now apply emits_time_Sleep|intros _; apply IH].
Qed.

Lemma emits_waitForOneRunningInstance tx tg cmd app :
  emits instanceEvent (waitForOneRunningInstance tx tg cmd app).
Proof.
  unfold waitForOneRunningInstance.
  apply emits_bind; [apply emits_time_Now|intros start].
  apply (emits_world instanceEvent
           (fun w0 => instanceLoop tx tg cmd (S (length (instanceAnswers w0)))
                        start app)).
  intros w0. apply emits_instanceLoop.
Qed.

Lemma emits_report tx app updatedApp org space :
  emits reportEvent (report tx app updatedApp org space).
Proof.
  unfold report.
  apply emits_bind; [now apply emits_emit|intros _].
  apply emits_bind; [now apply emits_emit|intros _].
  apply emits_bind; [now apply emits_emit|intros _].
  apply emits_bind; [now apply emits_GetApp|intros g].
  destruct (snd g); [apply emits_ret|].
  apply emits_bind; [now apply emits_emit|intros _].
  apply emits_bind; [now apply emits_ShowApp|intros e].
  destruct e; apply emits_ret.
Qed.

(** The report returns the application of the start operation, or the
    zero value with an error. *)
Lemma report_result tx app updatedApp org space w a e w' :
  report tx app updatedApp org space w = Some ((a, e), w') ->
  (e = None /\ a = updatedApp) \/ (e <> None /\ a = zeroApplication).
Proof.
  unfold report, ui_Say, ui_Ok. do 3 emit_step. rewrite bind_run.
  destruct (appRepo_GetApp _ _) as [[[g [ge|]] w1]|]; cbn [fst snd];
    try discriminate.
  - intros [= <- <- <-]. now right.
  - emit_step. rewrite bind_run.
    destruct (appDisplayer_ShowApp _ _ _ _) as [[[se|] w2]|];
      try discriminate; intros [= <- <- <-]; [now right|now left].
Qed.

Lemma WatchStaging_unfold_report tx tg cmd app org space start w :
  WatchStaging tx tg cmd app org space start w
  = match start app (tailing app w) with
    | None => None
    | Some ((_, Some err), w1) => Some ((zeroApplication, Some err), w1)
    | Some ((updatedApp, None), w1) =>
        match waitForInstancesToStage tx cmd updatedApp w1 with
        | None => None
        | Some ((_, Some err), w2) => Some ((zeroApplication, Some err), w2)
        | Some ((false, None), w2) =>
            Some ((zeroApplication,
                   Some (Name app ++ " failed to stage within "
                         ++ fmt_minutes tx (StagingTimeout cmd) ++ " minutes")),
                  drained w2)
        | Some ((true, None), w2) =>
            match waitForOneRunningInstance tx tg cmd updatedApp (drained w2) with
            | None => None
            | Some (Some err, w3) => Some ((zeroApplication, Some err), w3)
            | Some (None, w3) => report tx app updatedApp org space w3
            end
        end
    end.
Proof. apply WatchStaging_unfold. Qed.

(** ** StartOrchestrator *)

(** X17.  [WatchStaging] never returns an application together with an
    error: with an error it returns the zero [Application], and with a
    nil error it returns the very record the start operation returned
    (not the one fetched again for the report). *)
Theorem WatchStaging_result
    (tx : Texts) (tg : InstanceTags) (cmd : Start) (app : Application)
    (orgName spaceName : string)
    (start : Application -> M (Application * option error))
    (w : World) (a : Application) (e : option error) (w' : World) :
  WatchStaging tx tg cmd app orgName spaceName start w = Some ((a, e), w') ->
  (e <> None -> a = zeroApplication)
  /\ (e = None ->
      exists w1, start app (tailing app w) = Some ((a, None), w1)).
Proof.
  rewrite WatchStaging_unfold_report.
  destruct (start app (tailing app w)) as [[[u [se|]] w1]|];
    try discriminate.
  - intros [= <- <- <-]. split; [reflexivity|discriminate].
  - destruct (waitForInstancesToStage tx cmd u w1) as [[[b [ge|]] w2]|];
      try discriminate.
    + destruct b; intros [= <- <- <-]; (split; [reflexivity|discriminate]).
    + destruct b.
      * destruct (waitForOneRunningInstance tx tg cmd u (drained w2))
          as [[[ie|] w3]|]; try discriminate.
        -- intros [= <- <- <-]. split; [reflexivity|discriminate].
        -- intros Hrep.
           destruct (report_result _ _ _ _ _ _ _ _ _ Hrep)
             as [[-> ->]|[Hne ->]].
           ++ split; [congruence|]. intros _. now exists w1.
           ++ split; [reflexivity|]. intros He. contradiction.
      * intros [= <- <- <-]. split; [reflexivity|discriminate].
Qed.

Lemma WatchStaging_result_witness :
  exists w1,
    startCommand Sample.texts "org" "space" Sample.stopped
      (tailing Sample.stopped goodStart)
    = Some ((Sample.pending, None), w1).
Proof.
  edestruct (WatchStaging_result Sample.texts Sample.tags Sample.defaults
               Sample.stopped "org" "space"
               (startCommand Sample.texts "org" "space") goodStart
               Sample.pending None) as [_ Hstart];
    [vm_compute; reflexivity|].
  apply Hstart. reflexivity.
Defined.

Lemma startCommand_run tx org space app w :
  startCommand tx org space app w
  = match updateAnswers w with
    | [] => None
    | (d, r) :: rest =>
        Some (r, mkWorld (now w + Z.of_N d) (appAnswers w) rest
                   (instanceAnswers w) (showAnswers w)
                   (trace w ++ [EvSay (startingMessage tx app org space);
                                EvUpdate (GUID app) "STARTED"]))
    end.
Proof.
  unfold startCommand, appRepo_Update, popUpdate, ui_Say, bind, emit,
    advance, ret.
  cbn [updateAnswers now appAnswers instanceAnswers showAnswers trace].
  destruct (updateAnswers w) as [|[d r] rest]; [reflexivity|].
  cbn [fst snd]. now rewrite <- app_assoc.
Qed.

Lemma stagingEvent_beforeDrain e : stagingEvent e -> beforeDrain e.
Proof. now destruct e. Qed.

Lemma instanceEvent_afterDrain e : instanceEvent e -> afterDrain e.
Proof. now destruct e. Qed.

Lemma reportEvent_afterDrain e : reportEvent e -> afterDrain e.
Proof. now destruct e. Qed.

(** X18.  The order of a start.  For an application that is not started
    yet, whatever the outcome, [ApplicationStart] first launches the
    tailer, then waits for its ready signal, then announces the start and
    asks for it, once; the staging poll follows.  After that it either
    returns an error without having sent the stop signal, or it sends the
    stop signal once and waits for the done signal right after it; every
    request for the instances and the whole report come after that
    wait.  A nil error is returned only on the second way. *)
Theorem ApplicationStart_protocol
    (tx : Texts) (tg : InstanceTags) (cmd : Start) (app : Application)
    (orgName spaceName : string) (w : World)
    (a : Application) (e : option error) (w' : World) :
  State app <> "started" ->
  ApplicationStart tx tg cmd app orgName spaceName w = Some ((a, e), w') ->
  exists polls,
    Forall stagingEvent polls
    /\ ((e <> None
         /\ trace w'
            = (trace w ++ startRequest tx app orgName spaceName ++ polls)%list)
        \/ (exists rest,
              Forall afterDrain rest
              /\ trace w'
                 = (trace w ++ startRequest tx app orgName spaceName
                    ++ polls ++ EvSendStop :: EvWaitDone :: rest)%list)).
Proof.
  intros Hstate. unfold ApplicationStart.
  apply String.eqb_neq in Hstate. rewrite Hstate.
  rewrite WatchStaging_unfold_report, startCommand_run.
  cbn [tailing afterEmit updateAnswers now appAnswers instanceAnswers
       showAnswers trace].
  destruct (updateAnswers w) as [|[d [u [se|]]] urest]; try discriminate.
  - intros [= <- <- <-]. exists []. split; [constructor|left].
    split; [discriminate|]. cbn [trace startRequest].
    now rewrite <- !app_assoc.
  - set (w1 := mkWorld _ _ _ _ _ _).
    assert (trace w1 = (trace w ++ startRequest tx app orgName spaceName)%list)
      as Hw1 by (cbn [trace w1 startRequest]; now rewrite <- !app_assoc).
    destruct (waitForInstancesToStage tx cmd u w1) as [[[b [ge|]] w2]|] eqn:Hst;
      try discriminate;
      destruct (emits_waitForInstancesToStage tx cmd u _ _ _ Hst)
        as (polls & Hw2 & Hpolls);
      rewrite Hw1 in Hw2.
    + destruct b; intros [= <- <- <-]; exists polls;
        (split; [assumption|left]);
        (split; [discriminate|]); now rewrite Hw2, <- app_assoc.
    + assert (trace (drained w2)
              = (trace w ++ startRequest tx app orgName spaceName ++ polls
                 ++ EvSendStop :: EvWaitDone :: [EvSay EmptyString])%list)
        as Hdr.
      { cbn [drained afterEmit trace]. rewrite Hw2, <- !app_assoc.
        reflexivity. }
      destruct b.
      * destruct (waitForOneRunningInstance tx tg cmd u (drained w2))
          as [[[ie|] w3]|] eqn:Hin; try discriminate;
          destruct (emits_waitForOneRunningInstance tx tg cmd u _ _ _ Hin)
            as (ievs & Hw3 & Hievs);
          rewrite Hdr in Hw3.
        -- intros [= <- <- <-]. exists polls. split; [assumption|right].
           exists (EvSay EmptyString :: ievs). split.
           ++ constructor; [exact I|].
              eapply Forall_impl; [exact Hievs|apply instanceEvent_afterDrain].
           ++ rewrite Hw3, <- !app_assoc. reflexivity.
        -- intros Hrep.
           destruct (emits_report tx app u orgName spaceName _ _ _ Hrep)
             as (revs & Hw4 & Hrevs).
           rewrite Hw3 in Hw4.
           exists polls. split; [assumption|right].
           exists (EvSay EmptyString :: ievs ++ revs)%list. split.
           ++ constructor; [exact I|]. apply Forall_app. split.
              ** eapply Forall_impl; [exact Hievs|apply instanceEvent_afterDrain].
              ** eapply Forall_impl; [exact Hrevs|apply reportEvent_afterDrain].
           ++ rewrite Hw4, <- !app_assoc. reflexivity.
      * intros [= <- <- <-]. exists polls. split; [assumption|right].
        exists [EvSay EmptyString]. split; [now repeat constructor|].
        exact Hdr.
Qed.

Lemma ApplicationStart_protocol_witness :
  exists w' polls rest,
    ApplicationStart Sample.texts Sample.tags Sample.defaults Sample.stopped
      "org" "space" goodStart = Some ((Sample.pending, None), w')
    /\ Forall stagingEvent polls
    /\ Forall afterDrain rest
    /\ trace w'
       = (trace goodStart
          ++ startRequest Sample.texts Sample.stopped "org" "space"
          ++ polls ++ EvSendStop :: EvWaitDone :: rest)%list.
Proof.
  eexists.
  edestruct (ApplicationStart_protocol Sample.texts Sample.tags
               Sample.defaults Sample.stopped "org" "space" goodStart
               Sample.pending None)
    as (polls & Hpolls & [[Hne _]|(rest & Hrest & Htrace)]);
    [discriminate | vm_compute; reflexivity | congruence |].
  exists polls, rest.
  split; [|split; [exact Hpolls|split; [exact Hrest|exact Htrace]]].
  vm_compute. reflexivity.
Defined.

(** ** Requirements and the command runner *)

Section RunnerExtras.
Import rpc.
Variable St : Type.
Variable fmt_v : PanicValue -> string.

(** Requirements that pass, then one more. *)
Lemma executeAll_app (pre : list (Requirement St)) : forall post s s1,
  executeAll pre s = Returns None s1 ->
  executeAll (pre ++ post) s = executeAll post s1.
Proof.
  induction pre as [|r pre IH]; intros post s s1; cbn [executeAll app].
  - now intros [= <-].
  - unfold andThen. destruct (r s) as [[e|] s'|v s']; try discriminate.
    apply IH.
Qed.

(** X19.  The requirements of a command are executed in order and the
    first one that fails ends [Command]: its error is returned, and
    neither the requirements after it nor the command itself are
    executed, the state is as the failing requirement left it. *)
Theorem Command_stops_at_failing_requirement
    (registry : string -> option (RegisteredCommand St))
    (name : string) (flagArgs : list string) (pluginApiCall : bool)
    (registered : RegisteredCommand St) (cfCmd : ReadyCommand St)
    (pre post : list (Requirement St)) (r : Requirement St) (e : error)
    (s s1 s2 s3 s4 s5 : St) :
  registry name = Some registered ->
  Parse registered flagArgs s = Returns None s1 ->
  SetDependency registered pluginApiCall s1 = Returns cfCmd s2 ->
  Requirements cfCmd flagArgs s2 = Returns (pre ++ r :: post)%list s3 ->
  executeAll pre s3 = Returns None s4 ->
  r s4 = Returns (Some e) s5 ->
  Command St fmt_v registry (name :: flagArgs) pluginApiCall s
  = Returns (Some e) s5.
Proof.
  intros Hreg Hparse Hdep Hreqs Hpre Hr.
  unfold Command. rewrite Hreg. unfold andThen at 1. rewrite Hparse.
  unfold andThen at 1. rewrite Hdep.
  unfold andThen at 1. rewrite Hreqs.
  unfold andThen at 1. rewrite (executeAll_app pre _ _ _ Hpre).
  cbn [executeAll]. unfold andThen at 1. now rewrite Hr.
Qed.

(** X20.  What [Command] recovers from.  When the flags parse and all
    requirements pass, a panic of the command's [Execute] does not leave
    [Command]: it is returned as the error [command panic: ...], and an
    [Execute] that returns has its result handed on.  A panic of a
    requirement is not recovered: it leaves [Command] as a panic. *)
Theorem Command_recovers_Execute_only
    (registry : string -> option (RegisteredCommand St))
    (name : string) (flagArgs : list string) (pluginApiCall : bool)
    (registered : RegisteredCommand St) (cfCmd : ReadyCommand St)
    (pre post : list (Requirement St))
    (s s1 s2 s3 s4 : St) :
  registry name = Some registered ->
  Parse registered flagArgs s = Returns None s1 ->
  SetDependency registered pluginApiCall s1 = Returns cfCmd s2 ->
  Requirements cfCmd flagArgs s2 = Returns (pre ++ post)%list s3 ->
  executeAll pre s3 = Returns None s4 ->
  (forall v s5,
     post = [] -> Execute cfCmd flagArgs s4 = Panics v s5 ->
     Command St fmt_v registry (name :: flagArgs) pluginApiCall s
     = Returns (Some ("command panic: " ++ fmt_v v)) s5)
  /\ (forall a s5,
        post = [] -> Execute cfCmd flagArgs s4 = Returns a s5 ->
        Command St fmt_v registry (name :: flagArgs) pluginApiCall s
        = Returns a s5)
  /\ (forall r rest v s5,
        post = r :: rest -> r s4 = Panics v s5 ->
        Command St fmt_v registry (name :: flagArgs) pluginApiCall s
        = Panics v s5).
Proof.
  intros Hreg Hparse Hdep Hreqs Hpre.
  assert (Command St fmt_v registry (name :: flagArgs) pluginApiCall s
          = andThen (executeAll post)
              (fun err => match err with
                          | Some e => pure (Some e)
                          | None => recovering St fmt_v (Execute cfCmd flagArgs)
                          end) s4) as Hrun.
  { unfold Command. rewrite Hreg. unfold andThen at 1. rewrite Hparse.
    unfold andThen at 1. rewrite Hdep.
    unfold andThen at 1. rewrite Hreqs.
    unfold andThen at 1. now rewrite (executeAll_app pre _ _ _ Hpre). }
  rewrite Hrun. repeat split.
  - intros v s5 -> Hexe. cbn [executeAll]. unfold andThen, pure, recovering.
    now rewrite Hexe.
  - intros a s5 -> Hexe. cbn [executeAll]. unfold andThen, pure, recovering.
    now rewrite Hexe.
  - intros r rest v s5 -> Hr. cbn [executeAll]. unfold andThen.
    now rewrite Hr.
Qed.

(** X21.  A usage requirement whose predicate holds fails with the text
    [Incorrect Usage.], the message and, after an empty line, the usage of
    the command; met among the requirements of a command, it keeps
    [Command] from executing the command. *)
Theorem Command_stops_at_incorrect_usage
    (registry : string -> option (RegisteredCommand St))
    (name : string) (flagArgs : list string) (pluginApiCall : bool)
    (registered : RegisteredCommand St) (cfCmd : ReadyCommand St)
    (pre post : list (Requirement St))
    (Usage : Act St string) (errorMessage : string) (pred : Act St bool)
    (usage : string) (s s1 s2 s3 s4 s5 s6 : St) :
  registry name = Some registered ->
  Parse registered flagArgs s = Returns None s1 ->
  SetDependency registered pluginApiCall s1 = Returns cfCmd s2 ->
  Requirements cfCmd flagArgs s2
  = Returns (pre ++ NewUsageRequirement Usage errorMessage pred :: post)%list s3 ->
  executeAll pre s3 = Returns None s4 ->
  pred s4 = Returns true s5 ->
  Usage s5 = Returns usage s6 ->
  Command St fmt_v registry (name :: flagArgs) pluginApiCall s
  = Returns (Some ("Incorrect Usage. " ++ errorMessage ++ nl ++ nl ++ usage)) s6.
Proof.
  intros Hreg Hparse Hdep Hreqs Hpre Hpred Husage.
  unfold Command. rewrite Hreg. unfold andThen at 1. rewrite Hparse.
  unfold andThen at 1. rewrite Hdep.
  unfold andThen at 1. rewrite Hreqs.
  unfold andThen at 1. rewrite (executeAll_app pre _ _ _ Hpre).
  cbn [executeAll]. unfold andThen at 1.
  unfold NewUsageRequirement, andThen at 1. rewrite Hpred.
  unfold andThen. now rewrite Husage.
Qed.

End RunnerExtras.

Lemma Command_stops_at_failing_requirement_witness :
  rpc.Command (list string) SampleRunner.fmt_v SampleRunner.registry
    ["push"] false []
  = rpc.Returns
      (Some "Incorrect Usage. Requires an argument

cf push APP_NAME")
      ["Parse"; "SetDependency"; "Requirements"; "login requirement";
       "pred"; "Usage"].
Proof.
  apply (Command_stops_at_failing_requirement (list string)
           SampleRunner.fmt_v SampleRunner.registry "push" [] false
           SampleRunner.pushRegistered SampleRunner.push
           [SampleRunner.loginRequirement] [SampleRunner.spaceRequirement]
           (SampleRunner.usageRequirement [])
           "Incorrect Usage. Requires an argument

cf push APP_NAME"
           [] ["Parse"] ["Parse"; "SetDependency"]
           ["Parse"; "SetDependency"; "Requirements"]
           ["Parse"; "SetDependency"; "Requirements"; "login requirement"]);
    reflexivity.
Defined.

Lemma Command_recovers_Execute_only_witness :
  rpc.Command (list string) SampleRunner.fmt_v SampleRunner.registry
    ["push"; "dora"] false []
  = rpc.Returns (Some "command panic: assignment to entry in nil map")
      ["Parse"; "SetDependency"; "Requirements"; "login requirement";
       "pred"; "space requirement"; "Execute"].
Proof.
  edestruct (Command_recovers_Execute_only (list string) SampleRunner.fmt_v
               SampleRunner.registry "push" ["dora"] false
               SampleRunner.pushRegistered SampleRunner.push
               [SampleRunner.loginRequirement;
                SampleRunner.usageRequirement ["dora"];
                SampleRunner.spaceRequirement] []
               [] ["Parse"] ["Parse"; "SetDependency"]
               ["Parse"; "SetDependency"; "Requirements"]
               ["Parse"; "SetDependency"; "Requirements";
                "login requirement"; "pred"; "space requirement"])
    as (Hpanic & _ & _);
    [reflexivity | reflexivity | reflexivity | reflexivity | reflexivity |].
  apply (Hpanic (rpc.Raised "assignment to entry in nil map")); reflexivity.
Defined.

Lemma Command_stops_at_incorrect_usage_witness :
  rpc.Command (list string) SampleRunner.fmt_v SampleRunner.registry
    ["push"] true []
  = rpc.Returns
      (Some ("Incorrect Usage. " ++ "Requires an argument" ++ nl ++ nl
             ++ "cf push APP_NAME"))
      ["Parse"; "SetDependency"; "Requirements"; "login requirement";
       "pred"; "Usage"].
Proof.
  apply (Command_stops_at_incorrect_usage (list string) SampleRunner.fmt_v
           SampleRunner.registry "push" [] true
           SampleRunner.pushRegistered SampleRunner.push
           [SampleRunner.loginRequirement] [SampleRunner.spaceRequirement]
           (SampleRunner.log "Usage" "cf push APP_NAME")
           "Requires an argument"
           (SampleRunner.log "pred" true)
           "cf push APP_NAME"
           [] ["Parse"] ["Parse"; "SetDependency"]
           ["Parse"; "SetDependency"; "Requirements"]
           ["Parse"; "SetDependency"; "Requirements"; "login requirement"]
           ["Parse"; "SetDependency"; "Requirements"; "login requirement";
            "pred"]);
    reflexivity.
Defined.

(** ** The progress reader *)

Section ProgressExtras.
Import net.

Lemma delivered_cons a l :
  delivered (a :: l) = Z.max 0 (fst a) + delivered l.
Proof. reflexivity. Qed.

Lemma delivered_nonneg l : 0 <= delivered l.
Proof.
  induction l as [|a l IH]; [reflexivity|]. rewrite delivered_cons. lia.
Qed.

(** X22.  Without a total size (none set, or one that is not positive)
    reading only hands on what the wrapped reader returns: no printing
    goroutine is started, no byte is counted and nothing is printed,
    however many reads there are, and [Close] then closes the wrapped
    reader without a word to any goroutine. *)
Theorem Read_without_total
    (answers : list (Z * option error)) (closing : option error)
    (pr : ProgressReader) :
  hasReader pr = true ->
  total pr <= 0 ->
  readAll answers pr = Returns answers pr
  /\ (quit pr = NotStarted -> Close closing pr = Returns closing pr).
Proof.
  intros Hr Ht. split.
  - induction answers as [|a l IH]; [reflexivity|].
    cbn [readAll]. unfold Read. rewrite Hr. cbn [negb].
    destruct (Z.gtb_spec (total pr) 0); [lia|]. now rewrite IH.
  - intros Hq. unfold Close. now rewrite Hq, Hr.
Qed.

Lemma Read_without_total_witness :
  readAll [(512, None); (512, None); (0, Some "EOF")] (NewProgressReader true)
  = Returns [(512, None); (512, None); (0, Some "EOF")]
      (NewProgressReader true)
  /\ (quit (NewProgressReader true) = NotStarted ->
      Close None (NewProgressReader true)
      = Returns None (NewProgressReader true)).
Proof.
  apply (Read_without_total [(512, None); (512, None); (0, Some "EOF")] None
           (NewProgressReader true)).
  - reflexivity.
  - cbn. lia.
Defined.

(** One read that leaves the count below the total. *)
Lemma Read_below_total a pr :
  hasReader pr = true ->
  0 < total pr < 2 ^ 63 ->
  0 <= bytesRead pr ->
  bytesRead pr + Z.max 0 (fst a) < total pr ->
  Read a pr
  = Returns a (if (fst a >? 0)%Z
               then setBytesRead (bytesRead pr + fst a) (startPrinter pr)
               else pr).
Proof.
  intros Hr Ht Hb Hsum. unfold Read. rewrite Hr. cbn [negb].
  destruct (Z.gtb_spec (total pr) 0); [|lia].
  destruct (Z.gtb_spec (fst a) 0); [|reflexivity].
  assert (bytesRead (startPrinter pr) = bytesRead pr) as Hsb
    by (unfold startPrinter; now destruct (quit pr)).
  assert (total (startPrinter pr) = total pr) as Hst
    by (unfold startPrinter; now destruct (quit pr)).
  rewrite Hsb, int_wrap_small by lia.
  cbn [setBytesRead total bytesRead]. rewrite Hst.
  destruct (Z.leb_spec (total pr) (bytesRead pr + fst a)); [lia|].
  reflexivity.
Qed.

(** What such a read leaves. *)
Lemma Read_below_total_state (a : Z * option error) pr :
  hasReader pr = true ->
  quit pr <> Finished ->
  let pr1 := (if (fst a >? 0)%Z
              then setBytesRead (bytesRead pr + fst a) (startPrinter pr)
              else pr) in
  hasReader pr1 = true
  /\ total pr1 = total pr
  /\ bytesRead pr1 = bytesRead pr + Z.max 0 (fst a)
  /\ ui pr1 = ui pr
  /\ quit pr1 <> Finished
  /\ (quit pr = Printing -> quit pr1 = Printing)
  /\ (0 < fst a -> quit pr1 = Printing).
Proof.
  intros Hr Hq. cbn zeta. destruct (Z.gtb_spec (fst a) 0).
  - unfold setBytesRead, startPrinter.
    destruct (quit pr) eqn:Hqp;
      cbn [hasReader total bytesRead ui quit];
      rewrite ?Hqp; repeat split; try assumption; try lia; try congruence.
  - repeat split; try assumption; try lia; auto.
Qed.

Lemma readAll_below_total (answers : list (Z * option error)) :
  forall pr,
  hasReader pr = true ->
  0 < total pr < 2 ^ 63 ->
  0 <= bytesRead pr ->
  quit pr <> Finished ->
  bytesRead pr + delivered answers < total pr ->
  exists pr',
    readAll answers pr = Returns answers pr'
    /\ bytesRead pr' = bytesRead pr + delivered answers
    /\ total pr' = total pr
    /\ ui pr' = ui pr
    /\ quit pr' <> Finished
    /\ (quit pr = Printing -> quit pr' = Printing)
    /\ (0 < delivered answers -> quit pr' = Printing).
Proof.
  induction answers as [|a l IH]; intros pr Hr Ht Hb Hq Hsum.
  - exists pr. cbn [readAll]. change (delivered []) with 0.
    repeat split; try assumption; try lia; try (intros; lia); auto.
  - rewrite delivered_cons in Hsum.
    pose proof (delivered_nonneg l) as Hl.
    cbn [readAll]. rewrite Read_below_total by (try assumption; lia).
    destruct (Read_below_total_state a pr Hr Hq)
      as (Hr1 & Ht1 & Hb1 & Hu1 & Hq1 & Hk1 & Hp1).
    destruct (IH _ Hr1) as (pr' & Hrun & Hb' & Ht' & Hu' & Hq' & Hk' & Hp');
      try assumption; try lia.
    exists pr'. rewrite Hrun, delivered_cons.
    repeat split; try assumption; try congruence; try lia.
    + intros Hpr. apply Hk', Hk1, Hpr.
    + intros Hpos.
      destruct (Z.ltb_spec 0 (fst a)) as [Ha|Ha]; [apply Hk', Hp1, Ha|].
      apply Hp'. lia.
Qed.

(** X23.  With a total size set, reads that deliver fewer bytes in all
    than are missing to the total all return what the wrapped reader
    returned, and the count has grown by exactly the bytes delivered;
    nothing is said of the end of the upload, and the printing goroutine
    is running as soon as one byte was delivered. *)
Theorem Read_counts_bytes
    (answers : list (Z * option error)) (pr : ProgressReader) :
  hasReader pr = true ->
  0 < total pr < 2 ^ 63 ->
  0 <= bytesRead pr ->
  quit pr <> Finished ->
  bytesRead pr + delivered answers < total pr ->
  exists pr',
    readAll answers pr = Returns answers pr'
    /\ bytesRead pr' = bytesRead pr + delivered answers
    /\ total pr' = total pr
    /\ ui pr' = ui pr
    /\ quit pr' <> Finished
    /\ (0 < delivered answers -> quit pr' = Printing).
Proof.
  intros Hr Ht Hb Hq Hsum.
  destruct (readAll_below_total answers pr Hr Ht Hb Hq Hsum)
    as (pr' & Hrun & Hb' & Ht' & Hu' & Hq' & _ & Hp').
  exists pr'. repeat split; assumption.
Qed.

Lemma Read_counts_bytes_witness :
  exists pr',
    readAll [(5, None); (0, None); (4, None)]
      (SetTotalSize 10 (NewProgressReader true))
    = Returns [(5, None); (0, None); (4, None)] pr'
    /\ bytesRead pr' = 0 + 9
    /\ total pr' = 10
    /\ ui pr' = []
    /\ quit pr' <> Finished
    /\ (0 < 9 -> quit pr' = Printing).
Proof.
  apply (Read_counts_bytes [(5, None); (0, None); (4, None)]
           (SetTotalSize 10 (NewProgressReader true))).
  - reflexivity.
  - cbn. lia.
  - cbn. lia.
  - discriminate.
  - cbn. lia.
Defined.

(** X24.  The read that brings the count up to the total size tells the
    printing goroutine to quit: the line is overwritten, [Done uploading]
    is said, and the read returns what the wrapped reader returned.  The
    goroutine is gone after that, so a [Close] that follows blocks for
    good on its send to [quit], and so does any later read that delivers
    a byte. *)
Theorem Read_completes_then_Close_blocks
    (n : Z) (err closing : option error) (pr : ProgressReader) :
  hasReader pr = true ->
  0 < total pr ->
  quit pr <> Finished ->
  0 <= bytesRead pr ->
  0 < n ->
  total pr <= bytesRead pr + n < 2 ^ 63 ->
  exists pr',
    Read (n, err) pr = Returns (n, err) pr'
    /\ quit pr' = Finished
    /\ bytesRead pr' = bytesRead pr + n
    /\ ui pr'
       = (ui pr
          ++ [PrintCapturingNoOutput (cr ++ "                             ");
              Say (cr ++ "Done uploading")])%list
    /\ Close closing pr' = Blocks pr'
    /\ (forall m e,
          0 < m -> bytesRead pr' + m < 2 ^ 63 ->
          Read (m, e) pr' = Blocks (setBytesRead (bytesRead pr' + m) pr')).
Proof.
  intros Hr Ht Hq Hb Hn Hsum.
  assert (bytesRead (startPrinter pr) = bytesRead pr
          /\ total (startPrinter pr) = total pr
          /\ hasReader (startPrinter pr) = true
          /\ ui (startPrinter pr) = ui pr
          /\ quit (startPrinter pr) = Printing) as (Hsb & Hst & Hsr & Hsu & Hsq).
  { unfold startPrinter. destruct (quit pr) eqn:Hqp; cbn;
      repeat split; try assumption; congruence. }
  eexists. split.
  - unfold Read. rewrite Hr. cbn [negb fst].
    destruct (Z.gtb_spec (total pr) 0); [|lia].
    destruct (Z.gtb_spec n 0); [|lia].
    rewrite Hsb, int_wrap_small by lia.
    cbn [setBytesRead total bytesRead]. rewrite Hst.
    destruct (Z.leb_spec (total pr) (bytesRead pr + n)); [|lia].
    unfold sendQuit, setBytesRead. cbn [quit hasReader bytesRead total ui].
    rewrite Hsq, Hsr, Hst, Hsu. reflexivity.
  - cbn [quit bytesRead ui].
    split; [reflexivity|]. split; [reflexivity|]. split; [reflexivity|].
    split; [reflexivity|].
    intros m e Hm Hbound. unfold Read. cbn [hasReader negb fst total].
    destruct (Z.gtb_spec (total pr) 0); [|lia].
    destruct (Z.gtb_spec m 0); [|lia].
    unfold startPrinter. cbn [quit bytesRead].
    rewrite int_wrap_small by lia.
    unfold setBytesRead. cbn [total bytesRead hasReader quit ui].
    destruct (Z.leb_spec (total pr) (bytesRead pr + n + m)); [|lia].
    reflexivity.
Qed.

Lemma Read_completes_then_Close_blocks_witness :
  exists pr',
    Read (5, Some "EOF") (mkProgressReader true 5 10 Printing [])
    = Returns (5, Some "EOF") pr'
    /\ quit pr' = Finished
    /\ bytesRead pr' = 5 + 5
    /\ ui pr'
       = ([] ++ [PrintCapturingNoOutput (cr ++ "                             ");
                 Say (cr ++ "Done uploading")])%list
    /\ Close None pr' = Blocks pr'
    /\ (forall m e,
          0 < m -> bytesRead pr' + m < 2 ^ 63 ->
          Read (m, e) pr' = Blocks (setBytesRead (bytesRead pr' + m) pr')).
Proof.
  apply (Read_completes_then_Close_blocks 5 (Some "EOF") None
           (mkProgressReader true 5 10 Printing []));
    cbn; try reflexivity; try discriminate; lia.
Defined.

End ProgressExtras.
